(** * RFC property extractor: the section parser, the pipeline stages and
      the tabular store of [streamlit_app.py]

    A shallow embedding of the three classes of the application:
    [SmartRFCParser] (heuristic section extraction), [PropertyProcessor]
    (the three batched stage operations around the external model call) and
    [DataManager] (the upsert-by-id tables).

    Modelling conventions.
    - A Python [str] is a [string]; characters are the 8-bit codes of
      [ascii].  Case mapping, whitespace and digit classes are Python's on
      code points below 128; larger codes are caseless, non-blank and
      non-digit.
    - Python lists are lists, dictionaries with a fixed set of keys are
      records, a possibly missing value is an [option].
    - Library calls are modelled by what they compute on these data:
      [str.split], [str.strip], [str.count], [str.join], slicing, the three
      regular expressions of the source (each by a matcher following the
      backtracking search of [re] on that pattern), the stable
      [list.sort] and pandas' [concat] / [drop_duplicates]. *)

From Stdlib Require Import String Ascii List Arith Bool Lia Sorted Permutation.
Import ListNotations.
Open Scope string_scope.
Open Scope list_scope.
Open Scope nat_scope.

(** ** Python string primitives *)

Module Py.

(** [c.isspace()] on code points below 128: TAB..CR, FS..US and the space. *)
Definition isspace (c : ascii) : bool :=
  let n := nat_of_ascii c in
  ((9 <=? n) && (n <=? 13)) || ((28 <=? n) && (n <=? 32)).

(** The regular-expression class [\d]. *)
Definition isdigit (c : ascii) : bool :=
  let n := nat_of_ascii c in (48 <=? n) && (n <=? 57).

Definition upper_char (c : ascii) : ascii :=
  let n := nat_of_ascii c in
  if (97 <=? n) && (n <=? 122) then ascii_of_nat (n - 32) else c.

(** [s.upper()] *)
Fixpoint upper (s : string) : string :=
  match s with
  | EmptyString => EmptyString
  | String c s' => String (upper_char c) (upper s')
  end.

Definition newline : ascii := "010"%char.

(** [s.split('\n')]: always at least one piece. *)
Fixpoint split_lines (s : string) : list string :=
  match s with
  | EmptyString => [EmptyString]
  | String c s' =>
      if Ascii.eqb c newline then EmptyString :: split_lines s'
      else match split_lines s' with
           | l :: ls => String c l :: ls
           | [] => [String c EmptyString]
           end
  end.

(** ['\n'.join(lines)] *)
Definition join_lines (lines : list string) : string :=
  String.concat (String newline EmptyString) lines.

Fixpoint take_while (p : ascii -> bool) (s : string) : string :=
  match s with
  | EmptyString => EmptyString
  | String c s' => if p c then String c (take_while p s') else EmptyString
  end.

Fixpoint drop_while (p : ascii -> bool) (s : string) : string :=
  match s with
  | EmptyString => EmptyString
  | String c s' => if p c then drop_while p s' else s
  end.

(** Removal of the trailing characters satisfying [p]. *)
Fixpoint rstrip_with (p : ascii -> bool) (s : string) : string :=
  match s with
  | EmptyString => EmptyString
  | String c s' =>
      match rstrip_with p s' with
      | EmptyString => if p c then EmptyString else String c EmptyString
      | r => String c r
      end
  end.

(** [s.strip()] *)
Definition strip (s : string) : string :=
  rstrip_with isspace (drop_while isspace s).

(** [s.rstrip('.')] *)
Definition rstrip_dot (s : string) : string :=
  rstrip_with (Ascii.eqb "."%char) s.

(** [s[:n]] *)
Definition slice_to (n : nat) (s : string) : string := substring 0 n s.

(** [s.startswith(p)] *)
Definition startswith (s p : string) : bool := prefix p s.

Fixpoint drop (n : nat) (s : string) : string :=
  match n, s with
  | 0, _ => s
  | S n', String _ s' => drop n' s'
  | S _, EmptyString => EmptyString
  end.

(** [s.count(sub)]: the number of non-overlapping occurrences of [sub],
    found from left to right; after a hit the scan resumes behind it, which
    [skip] counts down.  For an empty [sub] Python answers [len(s) + 1]. *)
Fixpoint count_from (sub s : string) (skip : nat) : nat :=
  match s with
  | EmptyString => 0
  | String _ s' =>
      match skip with
      | S k => count_from sub s' k
      | 0 => if prefix sub s
             then S (count_from sub s' (String.length sub - 1))
             else count_from sub s' 0
      end
  end.

Definition count (s sub : string) : nat :=
  match sub with
  | EmptyString => S (String.length s)
  | _ => count_from sub s 0
  end.

(** Truthiness of a string and of a list. *)
Definition truthy_str (s : string) : bool := negb (String.eqb s EmptyString).
Definition truthy_list {A} (l : list A) : bool :=
  match l with [] => false | _ => true end.

End Py.

(** ** SmartRFCParser *)

Module SmartRFCParser.
Import Py.

Definition RFC_KEYWORDS : list string :=
  ["MUST"; "MUST NOT"; "REQUIRED"; "SHALL"; "SHALL NOT";
   "SHOULD"; "SHOULD NOT"; "RECOMMENDED"; "MAY"; "OPTIONAL"].

(** [_count_keywords]: the loop adds [upper.count(kw)] for each keyword. *)
Definition _count_keywords (text : string) : nat :=
  let upper := Py.upper text in
  fold_left (fun count kw => count + Py.count upper kw) RFC_KEYWORDS 0.

(** An entry of the returned list: the dictionary with the keys
    ['section'], ['title'], ['content'] and ['keywords']. *)
Record entry := mk_entry {
  section : string;
  title : string;
  content : string;
  keywords : nat
}.

(** *** The section-header pattern
    [^(\d+(?:\.\d+)*\.?)\s+(.+?)$], matched with [re.match] against one
    stripped line (a string without newline). *)

(** After a first digit: the rest of [\d+(?:\.\d+)*], taken greedily.  A dot
    is consumed only when a digit follows it. *)
Fixpoint dotted_tail (s : string) : string * string :=
  match s with
  | EmptyString => (EmptyString, EmptyString)
  | String c s' =>
      if isdigit c then
        let (a, r) := dotted_tail s' in (String c a, r)
      else if Ascii.eqb c "."%char then
        match s' with
        | String d _ =>
            if isdigit d then
              let (a, r) := dotted_tail s' in (String c a, r)
            else (EmptyString, s)
        | EmptyString => (EmptyString, s)
        end
      else (EmptyString, s)
  end.

Fixpoint last_char (s : string) : string :=
  match s with
  | EmptyString => EmptyString
  | String c EmptyString => s
  | String _ s' => last_char s'
  end.

(** The two groups of a match, or [None].  The numeric group is greedy and
    giving back any of it leaves a digit or a dot where [\s+] must start, so
    only the blank run can be shortened by backtracking: when nothing
    follows the blanks, [(.+?)] takes the last of at least two blanks. *)
Definition match_header (line : string) : option (string * string) :=
  match line with
  | String c s' =>
      if isdigit c then
        let (num_tail, r1) := dotted_tail s' in
        let (dot, r2) :=
          match r1 with
          | String d r => if Ascii.eqb d "."%char
                          then (String d EmptyString, r)
                          else (EmptyString, r1)
          | EmptyString => (EmptyString, r1)
          end in
        let blanks := take_while isspace r2 in
        let rest := drop_while isspace r2 in
        match blanks, rest with
        | EmptyString, _ => None
        | _, String _ _ => Some ((String c num_tail ++ dot)%string, rest)
        | String _ (String _ _), EmptyString =>
            Some ((String c num_tail ++ dot)%string, last_char blanks)
        | _, EmptyString => None
        end
      else None
  | EmptyString => None
  end.

(** *** The scan over the lines *)

Record scan := mk_scan {
  sections : list entry;
  current_section : option string;   (* [None] until the first header *)
  current_title : string;
  current_content : list string
}.

Definition scan_init : scan := mk_scan [] None "" [].

Definition section_truthy (cs : option string) : bool :=
  match cs with
  | None => false
  | Some s => truthy_str s
  end.

(** "Save previous section if it has keywords": the list [sections] after
    the conditional append. *)
Definition save_section (st : scan) : list entry :=
  match current_section st with
  | Some num =>
      if truthy_str num && truthy_list (current_content st) then
        let content := join_lines (current_content st) in
        let keyword_count := _count_keywords content in
        if 3 <=? keyword_count then
          sections st ++ [mk_entry num (current_title st) content keyword_count]
        else sections st
      else sections st
  | None => sections st
  end.

(** One iteration of [for line in lines]. *)
Definition scan_line (st : scan) (line : string) : scan :=
  match match_header (strip line) with
  | Some (g1, g2) =>
      mk_scan (save_section st) (Some (rstrip_dot g1)) (strip g2) []
  | None =>
      if section_truthy (current_section st) then
        mk_scan (sections st) (current_section st) (current_title st)
                (current_content st ++ [line])
      else st
  end.

(** [sections.sort(key=lambda x: x['keywords'], reverse=True)]: Python's
    sort is stable, also with [reverse=True]; modelled by the insertion sort
    that puts an element before the first one with a key not above its
    own. *)
Fixpoint insert_desc (x : entry) (l : list entry) : list entry :=
  match l with
  | [] => [x]
  | y :: l' =>
      if keywords x <? keywords y then y :: insert_desc x l'
      else x :: y :: l'
  end.

Fixpoint sort_desc (l : list entry) : list entry :=
  match l with
  | [] => []
  | x :: l' => insert_desc x (sort_desc l')
  end.

(** The sections in the order in which the scan met them, the last one
    saved after the loop. *)
Definition collect_lines (lines : list string) : list entry :=
  save_section (fold_left scan_line lines scan_init).

Definition extract_lines (lines : list string) : list entry :=
  sort_desc (collect_lines lines).

Definition _extract_property_sections (text : string) : list entry :=
  extract_lines (split_lines text).

(** *** Document number and title *)

(** [RFC\s*(\d+)] with [re.IGNORECASE], tried at the head of [s]: the three
    letters in either case, the longest run of blanks, then the longest run
    of digits, which must not be empty (a shorter run of blanks would leave a
    blank where the digits must start).  The result is [group(1)]. *)
Definition match_rfc_here (s : string) : option string :=
  match s with
  | String a (String b (String c t)) =>
      if Ascii.eqb (upper_char a) "R"%char
         && Ascii.eqb (upper_char b) "F"%char
         && Ascii.eqb (upper_char c) "C"%char
      then
        let digits := take_while isdigit (drop_while isspace t) in
        if String.eqb digits EmptyString then None else Some digits
      else None
  | _ => None
  end.

(** [re.search]: the match at the leftmost position that has one. *)
Fixpoint search_rfc (s : string) : option string :=
  match match_rfc_here s with
  | Some g => Some g
  | None =>
      match s with
      | EmptyString => None
      | String _ s' => search_rfc s'
      end
  end.

Fixpoint _extract_title (lines : list string) : string :=
  match lines with
  | [] => "Unknown Title"
  | line :: lines' =>
      let stripped := strip line in
      if (15 <? String.length stripped) && negb (startswith stripped "RFC")
      then slice_to 100 stripped
      else _extract_title lines'
  end.

(** The dictionary returned by [parse]. *)
Record parsed := mk_parsed {
  rfc_number : string;
  doc_title : string;            (* key ['title'] *)
  total_chars : nat;
  property_sections : list entry
}.

Definition parse (text : string) : parsed :=
  let rfc_number :=
    match search_rfc text with
    | Some g => g
    | None => "Unknown"
    end in
  let lines := split_lines text in
  let title := _extract_title (firstn 20 lines) in
  let sections := _extract_property_sections text in
  mk_parsed rfc_number title (String.length text) sections.

End SmartRFCParser.

(** ** PropertyProcessor *)

(** The Python value that [json.loads] returns. *)
Module Json.

#[warnings="-register-all"]
Inductive value :=
| Null
| Bool (b : bool)
| Num (literal : string)
| Str (s : string)
| Arr (items : list value)
| Obj (fields : list (string * value)).   (* a dict: the keys are distinct *)

Definition lookup (key : string) (fields : list (string * value)) : option value :=
  match find (fun kv => String.eqb (fst kv) key) fields with
  | Some kv => Some (snd kv)
  | None => None
  end.

(** [item.get(key, default)]; only a dict has the method, on any other
    value the call raises ([None]). *)
Definition get (key : string) (default : value) (item : value) : option value :=
  match item with
  | Obj fields =>
      Some (match lookup key fields with Some v => v | None => default end)
  | _ => None
  end.

Fixpoint chars (s : string) : list string :=
  match s with
  | EmptyString => []
  | String c s' => String c EmptyString :: chars s'
  end.

(** What [for item in data] iterates over: the items of a list, the keys of
    a dict, the characters of a string; other values are not iterable. *)
Definition iterate (data : value) : option (list value) :=
  match data with
  | Arr items => Some items
  | Obj fields => Some (map (fun kv => Str (fst kv)) fields)
  | Str s => Some (map Str (chars s))
  | _ => None
  end.

Fixpoint strings (items : list value) : option (list string) :=
  match items with
  | [] => Some []
  | Str s :: rest =>
      match strings rest with
      | Some l => Some (s :: l)
      | None => None
      end
  | _ :: _ => None
  end.

(** [','.join(v)]: [v] must be iterable and yield strings only. *)
Definition comma_join (v : value) : option string :=
  match iterate v with
  | Some items =>
      match strings items with
      | Some l => Some (String.concat "," l)
      | None => None
      end
  | None => None
  end.

Definition is_object (v : value) : bool :=
  match v with Obj _ => true | _ => false end.

End Json.

Module PropertyProcessor.
Import Py.

(** The records built by the three stages. *)
Record property := mk_property {
  prop_id : string;
  prop_rfc : string;
  prop_section : Json.value;
  prop_text : Json.value;
  prop_type : Json.value;
  prop_timestamp : string
}.

Record proposition := mk_proposition {
  ap_id : string;
  ap_property_id : Json.value;
  ap_name : Json.value;
  ap_type : Json.value;
  ap_description : Json.value;
  ap_timestamp : string;
  ap_approved : bool
}.

Record formula := mk_formula {
  ltl_id : string;
  ltl_property_id : Json.value;
  ltl_formula : Json.value;
  ltl_explanation : Json.value;
  ltl_operators_used : string;
  ltl_timestamp : string;
  ltl_approved : bool
}.

(** What [self.client.messages.create(...)] followed by
    [response.content[0].text] comes to: an exception, or the text.  The
    prompt only influences this outcome, which is an input here. *)
Inductive reply :=
| Raised
| Text (text : string).

(** [re.search(r'\[.*\]', text, re.DOTALL)]: from the first opening bracket
    to the last closing bracket behind it. *)
Fixpoint from_first_open (s : string) : option string :=
  match s with
  | EmptyString => None
  | String c s' => if Ascii.eqb c "["%char then Some s else from_first_open s'
  end.

Fixpoint upto_last_close (s : string) : option string :=
  match s with
  | EmptyString => None
  | String c s' =>
      match upto_last_close s' with
      | Some p => Some (String c p)
      | None => if Ascii.eqb c "]"%char then Some (String c EmptyString) else None
      end
  end.

Definition search_array (text : string) : option string :=
  match from_first_open text with
  | Some (String c s') =>
      match upto_last_close s' with
      | Some p => Some (String c p)
      | None => None
      end
  | _ => None
  end.

Section Stages.

(** [json.loads]; [None] when it raises. *)
Variable json_loads : string -> option Json.value.
(** [str(uuid.uuid4())[:8]] and [datetime.now().isoformat()] at the
    [k]-th record of a call. *)
Variable uuid8 : nat -> string.
Variable now_iso : nat -> string.

(** The loop [for item in data: records.append({...})]; [None] as soon as
    building a record raises. *)
Fixpoint build {R} (mk : nat -> Json.value -> option R) (k : nat)
         (items : list Json.value) : option (list R) :=
  match items with
  | [] => Some []
  | item :: rest =>
      match mk k item with
      | Some r =>
          match build mk (S k) rest with
          | Some rs => Some (r :: rs)
          | None => None
          end
      | None => None
      end
  end.

(** The body of the [try] block; [None] when an exception leaves it. *)
Definition try_stage {R} (mk : nat -> Json.value -> option R) (r : reply)
  : option (list R) :=
  match r with
  | Raised => None
  | Text text =>
      match search_array text with
      | Some json_match =>
          match json_loads json_match with
          | Some data =>
              match Json.iterate data with
              | Some items => build mk 0 items
              | None => None
              end
          | None => None
          end
      | None => Some []
      end
  end.

(** [except Exception as e: st.error(...); return []] *)
Definition run_stage {R} (mk : nat -> Json.value -> option R) (r : reply)
  : list R :=
  match try_stage mk r with
  | Some records => records
  | None => []
  end.

Definition property_of (rfc_number : string) (k : nat) (item : Json.value)
  : option property :=
  match Json.get "section" (Json.Str "") item,
        Json.get "text" (Json.Str "") item,
        Json.get "type" (Json.Str "Unknown") item with
  | Some sec, Some txt, Some ty =>
      Some (mk_property (uuid8 k) rfc_number sec txt ty (now_iso k))
  | _, _, _ => None
  end.

Definition proposition_of (k : nat) (item : Json.value) : option proposition :=
  match Json.get "property_id" (Json.Str "") item,
        Json.get "name" (Json.Str "") item,
        Json.get "type" (Json.Str "") item,
        Json.get "description" (Json.Str "") item with
  | Some pid, Some name, Some ty, Some descr =>
      Some (mk_proposition (uuid8 k) pid name ty descr (now_iso k) false)
  | _, _, _, _ => None
  end.

Definition formula_of (k : nat) (item : Json.value) : option formula :=
  match Json.get "property_id" (Json.Str "") item,
        Json.get "ltl_formula" (Json.Str "") item,
        Json.get "explanation" (Json.Str "") item,
        Json.get "operators_used" (Json.Arr []) item with
  | Some pid, Some f, Some expl, Some ops =>
      match Json.comma_join ops with
      | Some joined =>
          Some (mk_formula (uuid8 k) pid f expl joined (now_iso k) false)
      | None => None
      end
  | _, _, _, _ => None
  end.

Definition extract_properties_batch (rfc_number : string) (r : reply)
  : list property := run_stage (property_of rfc_number) r.

Definition extract_propositions_batch (r : reply) : list proposition :=
  run_stage proposition_of r.

Definition generate_ltl_batch (r : reply) : list formula :=
  run_stage formula_of r.

(** The items from which [generate_ltl_batch] can build a record. *)
Definition joinable_operators (item : Json.value) : bool :=
  match Json.get "operators_used" (Json.Arr []) item with
  | Some ops => match Json.comma_join ops with Some _ => true | None => false end
  | None => false
  end.

End Stages.

(** The text of the sections in the prompt of [extract_properties_batch]:
    for each section a heading with its number and title, then the first
    2000 characters of its content. *)
Definition section_heading (sec : SmartRFCParser.entry) : string :=
  (String newline (String newline "=== SECTION ")
   ++ SmartRFCParser.section sec ++ ": " ++ SmartRFCParser.title sec
   ++ " ===" ++ String newline EmptyString)%string.

Definition sections_text (sections : list SmartRFCParser.entry) : string :=
  fold_left
    (fun text sec =>
       ((text ++ section_heading sec)
        ++ slice_to 2000 (SmartRFCParser.content sec))%string)
    sections EmptyString.

End PropertyProcessor.

(** ** DataManager *)

Module DataManager.
Import PropertyProcessor.

(** A table is the list of its rows, a file that does not exist is [None];
    writing a table and reading it back gives the same rows. *)
Class Row (R : Type) := row_id : R -> string.

#[export] Instance property_row : Row property := prop_id.
#[export] Instance proposition_row : Row proposition := ap_id.
#[export] Instance formula_row : Row formula := ltl_id.

Section Frames.
Context {R : Type} `{Row R}.

Definition ids (rows : list R) : list string := map row_id rows.

Definition same_id (a b : R) : bool := String.eqb (row_id a) (row_id b).

(** [df.drop_duplicates(subset=['id'], keep='last')]: a row goes when a
    later row has its id; the others stay in their order. *)
Fixpoint drop_duplicates_last (rows : list R) : list R :=
  match rows with
  | [] => []
  | r :: rest =>
      if existsb (same_id r) rest then drop_duplicates_last rest
      else r :: drop_duplicates_last rest
  end.

(** The rows that no row of [batch] overrides. *)
Definition untouched (batch : list R) (r : R) : bool :=
  negb (existsb (same_id r) batch).

(** The table written by a save: the batch as it is when the file does not
    exist, else [concat([existing, df])] without the duplicates. *)
Definition merged (file : option (list R)) (batch : list R) : list R :=
  match file with
  | Some existing => drop_duplicates_last (existing ++ batch)
  | None => batch
  end.

End Frames.

Record files := mk_files {
  PROPERTIES_FILE : option (list property);
  PROPOSITIONS_FILE : option (list proposition);
  LTL_FILE : option (list formula)
}.

Definition save_properties (props : list property) (fs : files) : files :=
  mk_files (Some (merged (PROPERTIES_FILE fs) props))
           (PROPOSITIONS_FILE fs) (LTL_FILE fs).

Definition save_propositions (props : list proposition) (fs : files) : files :=
  mk_files (PROPERTIES_FILE fs)
           (Some (merged (PROPOSITIONS_FILE fs) props)) (LTL_FILE fs).

Definition save_ltl_formulas (formulas : list formula) (fs : files) : files :=
  mk_files (PROPERTIES_FILE fs) (PROPOSITIONS_FILE fs)
           (Some (merged (LTL_FILE fs) formulas)).

(** [load_*]: the rows of the file, no row when the file does not exist. *)
Definition load_properties (fs : files) : list property :=
  match PROPERTIES_FILE fs with Some rows => rows | None => [] end.

Definition load_propositions (fs : files) : list proposition :=
  match PROPOSITIONS_FILE fs with Some rows => rows | None => [] end.

Definition load_ltl_formulas (fs : files) : list formula :=
  match LTL_FILE fs with Some rows => rows | None => [] end.

(** *** Approval

    [approve_propositions] and [approve_ltl] work on the table with one more
    column, [approved_by], than the records of the stages have.  Such a
    table is given by [by_column], whether the file has the column, and by
    its rows, each a record with its cell of that column ([None]: the cell
    is empty, as for a row that a save brought in after the column was
    made). *)
Record approved_row (R : Type) := mk_approved_row {
  record : R;
  approved_by : option string
}.
Arguments mk_approved_row {R} _ _.
Arguments record {R} _.
Arguments approved_by {R} _.

Record approval_table (R : Type) := mk_approval_table {
  by_column : bool;
  table_rows : list (approved_row R)
}.
Arguments mk_approval_table {R} _ _.
Arguments by_column {R} _.
Arguments table_rows {R} _.

(** [df['id'].isin(ids)] on one row. *)
Definition isin (i : string) (ids : list string) : bool :=
  existsb (String.eqb i) ids.

Section Approve.
Context {R : Type} `{Row R}.
(** The record with its cell [approved] set to [True]. *)
Variable set_approved : R -> R.

Definition load_table (file : option (approval_table R)) : approval_table R :=
  match file with
  | Some df => df
  | None => mk_approval_table false []
  end.

(** [if 'approved_by' not in df.columns: df['approved_by'] = '']: the rows
    with the column made, [''] in every row, when the file lacks it. *)
Definition fill_column (df : approval_table R) : list (approved_row R) :=
  if by_column df then table_rows df
  else map (fun r => mk_approved_row (record r) (Some EmptyString))
           (table_rows df).

(** The table written by [approve_*]: after the column is made, the rows
    whose id is listed get [approved = True], then the approver's name. *)
Definition approve (ids : list string) (approver : string)
           (file : option (approval_table R)) : approval_table R :=
  let df := load_table file in
  let with_column := fill_column df in
  let flagged :=
    map (fun r => if isin (row_id (record r)) ids
                  then mk_approved_row (set_approved (record r)) (approved_by r)
                  else r) with_column in
  let signed :=
    map (fun r => if isin (row_id (record r)) ids
                  then mk_approved_row (record r) (Some approver)
                  else r) flagged in
  mk_approval_table true signed.

(** Both assignments on one row. *)
Definition approve_row (ids : list string) (approver : string)
           (r : approved_row R) : approved_row R :=
  if isin (row_id (record r)) ids
  then mk_approved_row (set_approved (record r)) (Some approver)
  else r.

End Approve.

Definition proposition_approved (p : proposition) : proposition :=
  mk_proposition (ap_id p) (ap_property_id p) (ap_name p) (ap_type p)
                 (ap_description p) (ap_timestamp p) true.

Definition formula_approved (f : formula) : formula :=
  mk_formula (ltl_id f) (ltl_property_id f) (ltl_formula f) (ltl_explanation f)
             (ltl_operators_used f) (ltl_timestamp f) true.

Definition approve_propositions (prop_ids : list string) (approver : string)
  (file : option (approval_table proposition)) : approval_table proposition :=
  approve proposition_approved prop_ids approver file.

Definition approve_ltl (ltl_ids : list string) (approver : string)
  (file : option (approval_table formula)) : approval_table formula :=
  approve formula_approved ltl_ids approver file.

End DataManager.

(** ** The pages of the application *)

Module Workflow.
Import Py SmartRFCParser PropertyProcessor DataManager.

(** The values of [st.session_state.stage]. *)
Inductive stage_name :=
| stage_upload
| stage_review_properties
| stage_approve_propositions
| stage_approve_ltl
| stage_view.

(** [st.session_state]; [None] is Python's [None]. *)
Record session := mk_session {
  stage : stage_name;
  rfc_data : option parsed;
  properties : option (list property);
  propositions : option (list proposition);
  ltl_formulas : option (list formula)
}.

(** The session together with the files of the store. *)
Record app := mk_app {
  state : session;
  disk : files
}.

(** "Initialize": the session of a new visitor. *)
Definition new_session : session :=
  mk_session stage_upload None None None None.

(** The sections handed to [extract_properties_batch]:
    [rfc_data['property_sections'][:10]]. *)
Definition top_sections (rfc_data : parsed) : list entry :=
  firstn 10 (property_sections rfc_data).

(** A click on one of the buttons that can change the stage, with what the
    outside world supplies during the run of its handler: the uploaded text,
    the outcome of the model call, the ids and times drawn.  The buttons
    that edit the records of the session in place and save them ("Save
    Changes", "Approve", "Approve LTL", "Skip") are not events of this
    model: they change neither the stage nor the ids or the number of the
    records of the session. *)
Inductive click :=
| ParseAndExtract (content : string) (r : reply) (uuid8 now_iso : nat -> string)
| ExtractPropositions (r : reply) (uuid8 now_iso : nat -> string)
| GenerateLTL (r : reply) (uuid8 now_iso : nat -> string)
| Finish
| ProcessAnother.

Section Handlers.

(** The credential read from the environment, and [json.loads]. *)
Variable API_KEY : string.
Variable json_loads : string -> option Json.value.

(** "Parse & Extract Properties", on the upload page. *)
Definition on_parse_and_extract (content : string) (r : reply)
           (uuid8 now_iso : nat -> string) (a : app) : app :=
  let s := state a in
  let rfc_data := parse content in
  let s1 := mk_session (stage s) (Some rfc_data) (properties s)
                       (propositions s) (ltl_formulas s) in
  if negb (truthy_str API_KEY) then mk_app s1 (disk a)
  else
    let props :=
      extract_properties_batch json_loads uuid8 now_iso (rfc_number rfc_data) r in
    if truthy_list props then
      mk_app (mk_session stage_review_properties (Some rfc_data) (Some props)
                         (propositions s) (ltl_formulas s))
             (save_properties props (disk a))
    else
      mk_app (mk_session (stage s) (Some rfc_data) (Some props)
                         (propositions s) (ltl_formulas s))
             (disk a).

(** "Extract Propositions", on the review page.  Without a session list of
    properties, or without the processor that only a credential creates,
    the handler raises and the run ends with the session as it was. *)
Definition on_extract_propositions (r : reply) (uuid8 now_iso : nat -> string)
           (a : app) : app :=
  let s := state a in
  match properties s with
  | None => a
  | Some _ =>
      if negb (truthy_str API_KEY) then a
      else
        let aps := extract_propositions_batch json_loads uuid8 now_iso r in
        if truthy_list aps then
          mk_app (mk_session stage_approve_propositions (rfc_data s) (properties s)
                             (Some aps) (ltl_formulas s))
                 (save_propositions aps (disk a))
        else
          mk_app (mk_session (stage s) (rfc_data s) (properties s)
                             (Some aps) (ltl_formulas s))
                 (disk a)
  end.

(** "Generate LTL Formulas", on the propositions page.  Grouping the
    propositions by property raises when there is a property to look up
    and the frame of the propositions has no column ([None] or an empty
    list); so does the lack of a processor. *)
Definition on_generate_ltl (r : reply) (uuid8 now_iso : nat -> string)
           (a : app) : app :=
  let s := state a in
  match properties s with
  | None => a
  | Some props =>
      let no_column :=
        match propositions s with
        | Some (_ :: _) => false
        | _ => true
        end in
      if truthy_list props && no_column then a
      else if negb (truthy_str API_KEY) then a
      else
        let fs := generate_ltl_batch json_loads uuid8 now_iso r in
        if truthy_list fs then
          mk_app (mk_session stage_approve_ltl (rfc_data s) (properties s)
                             (propositions s) (Some fs))
                 (save_ltl_formulas fs (disk a))
        else
          mk_app (mk_session (stage s) (rfc_data s) (properties s)
                             (propositions s) (Some fs))
                 (disk a)
  end.

(** "Finish & View Complete Data". *)
Definition on_finish (a : app) : app :=
  let s := state a in
  mk_app (mk_session stage_view (rfc_data s) (properties s) (propositions s)
                     (ltl_formulas s))
         (disk a).

(** "Process Another RFC". *)
Definition on_process_another (a : app) : app :=
  mk_app (mk_session stage_upload None None None None) (disk a).

(** The page of the current stage shows the button or not; a button that is
    not shown cannot be clicked. *)
Definition handle (c : click) (a : app) : app :=
  match stage (state a), c with
  | stage_upload, ParseAndExtract content r uuid8 now_iso =>
      on_parse_and_extract content r uuid8 now_iso a
  | stage_review_properties, ExtractPropositions r uuid8 now_iso =>
      on_extract_propositions r uuid8 now_iso a
  | stage_approve_propositions, GenerateLTL r uuid8 now_iso =>
      on_generate_ltl r uuid8 now_iso a
  | stage_approve_ltl, Finish => on_finish a
  | stage_view, ProcessAnother => on_process_another a
  | _, _ => a
  end.

Definition run (clicks : list click) (a : app) : app :=
  fold_left (fun a c => handle c a) clicks a.

End Handlers.

(** The stage after [s] in the cycle of the pages. *)
Definition next_stage (s : stage_name) : stage_name :=
  match s with
  | stage_upload => stage_review_properties
  | stage_review_properties => stage_approve_propositions
  | stage_approve_propositions => stage_approve_ltl
  | stage_approve_ltl => stage_view
  | stage_view => stage_upload
  end.

(** The pages from the review of the properties on, from the approval of
    the propositions on, from the approval of the formulas on. *)
Definition past_upload (s : stage_name) : bool :=
  match s with stage_upload => false | _ => true end.

Definition past_review (s : stage_name) : bool :=
  match s with
  | stage_upload | stage_review_properties => false
  | _ => true
  end.

Definition past_propositions (s : stage_name) : bool :=
  match s with
  | stage_approve_ltl | stage_view => true
  | _ => false
  end.

End Workflow.

Import Py SmartRFCParser PropertyProcessor DataManager.

(** ** Vocabulary of the statements *)

(** Non-increasing keyword counts. *)
Definition ranked (a b : entry) : Prop := keywords b <= keywords a.

Definition has_count (k : nat) (e : entry) : bool := keywords e =? k.

(** The line, once stripped, matches the section-header pattern. *)
Definition is_header (line : string) : bool :=
  match match_header (strip line) with Some _ => true | None => false end.

(** Every character of [s] is in the class [p]. *)
Fixpoint all_chars (p : ascii -> bool) (s : string) : bool :=
  match s with
  | EmptyString => true
  | String c s' => p c && all_chars p s'
  end.

(** The character [c] does not occur in [s]. *)
Definition lacks (c : ascii) (s : string) : bool :=
  all_chars (fun x => negb (Ascii.eqb x c)) s.

(** [s] starts with a character of the class [p]. *)
Definition head_is (p : ascii -> bool) (s : string) : bool :=
  match s with
  | EmptyString => false
  | String c _ => p c
  end.

(** The shape of a header line in the words of the specification: one or
    more dot-separated integers, an optional trailing dot, whitespace, then
    a non-empty title.  On a string without newline this is the language of
    the section-header pattern. *)
Inductive dotted_number : string -> Prop :=
| dotted_one d :
    d <> EmptyString -> all_chars isdigit d = true -> dotted_number d
| dotted_more d n :
    d <> EmptyString -> all_chars isdigit d = true -> dotted_number n ->
    dotted_number (d ++ "." ++ n).

Definition header_shape (s : string) : Prop :=
  exists num dot blanks title,
    s = (num ++ dot ++ blanks ++ title)%string /\
    dotted_number num /\ (dot = EmptyString \/ dot = ".") /\
    blanks <> EmptyString /\ all_chars isspace blanks = true /\
    title <> EmptyString.

(** Case-insensitive occurrences, following the words of the specification:
    [kw] occurs at the head of [s] when the piece of [s] of the length of
    [kw] that starts there equals [kw] up to the case of the letters;
    [ci_occurrences] counts the positions of [s] at which [kw] occurs, and
    [keyword_total] adds these numbers for the ten keywords. *)
Definition ci_occurs_here (kw s : string) : bool :=
  String.eqb (upper (substring 0 (String.length kw) s)) (upper kw).

Fixpoint ci_occurrences (kw s : string) : nat :=
  (if ci_occurs_here kw s then 1 else 0) +
  match s with
  | EmptyString => 0
  | String _ s' => ci_occurrences kw s'
  end.

Definition keyword_total (s : string) : nat :=
  list_sum (map (fun kw => ci_occurrences kw s) RFC_KEYWORDS).

(** No proper, non-empty end of [kw] is also a beginning of [kw]: two
    occurrences of such a word cannot overlap. *)
Definition borderless (kw : string) : bool :=
  forallb (fun k => negb (prefix (drop k kw) kw))
          (seq 1 (String.length kw - 1)).

(** Case-sensitive occurrences, all positions counted. *)
Fixpoint occurrences (kw s : string) : nat :=
  (if prefix kw s then 1 else 0) +
  match s with
  | EmptyString => 0
  | String _ s' => occurrences kw s'
  end.

(** An occurrence of [RFC\s*(\d+)] at the head of [s], in the words of the
    specification: the letters R, F, C in either case, blanks, and a
    non-empty group of digits that ends where the digits end. *)
Definition rfc_occurrence (s digits : string) : Prop :=
  exists letters blanks rest,
    s = (letters ++ blanks ++ digits ++ rest)%string /\
    upper letters = "RFC" /\
    all_chars isspace blanks = true /\
    all_chars isdigit digits = true /\ digits <> EmptyString /\
    head_is isdigit rest = false.

(** The first occurrence in [text] starts at position [i]. *)
Definition first_rfc_occurrence (text : string) (i : nat) (digits : string) : Prop :=
  rfc_occurrence (drop i text) digits /\
  forall j d, j < i -> ~ rfc_occurrence (drop j text) d.

(** A line that qualifies as the title: its trimmed form has more than 15
    characters and does not start with "RFC". *)
Definition title_candidate (line : string) : bool :=
  (15 <? String.length (strip line)) && negb (prefix "RFC" (strip line)).

(** The scan state [st] with the sections [found] put before its own. *)
Definition after_sections (found : list entry) (st : scan) : scan :=
  mk_scan (found ++ sections st) (current_section st) (current_title st)
          (current_content st).

(** Every record of a session list has its id in the table. *)
Definition all_saved {R : Type} `{Row R} (records table : list R) : Prop :=
  forall r, In r records -> In (row_id r) (ids table).

(** What holds of the session and of the store on each page. *)
Definition workflow_invariant (API_KEY : string) (a : Workflow.app) : Prop :=
  let s := Workflow.state a in
  (Workflow.past_upload (Workflow.stage s) = true ->
     truthy_str API_KEY = true /\
     exists props,
       Workflow.properties s = Some props /\ props <> [] /\
       all_saved props (load_properties (Workflow.disk a))) /\
  (Workflow.past_review (Workflow.stage s) = true ->
     exists aps,
       Workflow.propositions s = Some aps /\ aps <> [] /\
       all_saved aps (load_propositions (Workflow.disk a))) /\
  (Workflow.past_propositions (Workflow.stage s) = true ->
     exists fs,
       Workflow.ltl_formulas s = Some fs /\ fs <> [] /\
       all_saved fs (load_ltl_formulas (Workflow.disk a))).

(** ** Sample data *)

(** The text ["1. Intro\nMUST MUST SHOULD\n2. Rules\nMUST SHOULD MAY
    RECOMMENDED\n"] of the specification. *)
Definition sample_text : string :=
  join_lines ["1. Intro"; "MUST MUST SHOULD"; "2. Rules";
              "MUST SHOULD MAY RECOMMENDED"; ""].

Definition tls_title : string := "The Transport Layer Security (TLS) Protocol".

Definition tls_text : string :=
  join_lines ["Internet Draft"; "RFC 8446"; tls_title; "1. Introduction"].

(** The values of [json.loads] on two texts; it raises on the text that is
    not JSON. *)
Definition sample_loads (s : string) : option Json.value :=
  if String.eqb s "[1, 2]" then Some (Json.Arr [Json.Num "1"; Json.Num "2"])
  else if String.eqb s "[{}, {}]" then Some (Json.Arr [Json.Obj []; Json.Obj []])
  else None.

Definition sample_uuid (k : nat) : string :=
  match k with 0 => "0a1b2c3d" | _ => "4e5f6a7b" end.

Definition sample_now (k : nat) : string := "2025-01-01T00:00:00".

Definition row_a : property :=
  mk_property "aaaa0001" "8446" (Json.Str "4.2") (Json.Str "Client MUST send")
              (Json.Str "Safety") "t0".
Definition row_b : property :=
  mk_property "bbbb0002" "8446" (Json.Str "4.3") (Json.Str "Server MAY reply")
              (Json.Str "Liveness") "t0".
(** [row_a] after an edit of its text: same id. *)
Definition row_a_edited : property :=
  mk_property "aaaa0001" "8446" (Json.Str "4.2") (Json.Str "Client MUST NOT send")
              (Json.Str "Safety") "t1".
Definition row_c : property :=
  mk_property "cccc0003" "8446" (Json.Str "5") (Json.Str "Peers SHOULD close")
              (Json.Str "Ordering") "t1".

Definition no_files : files := mk_files None None None.
Definition some_files : files := mk_files (Some [row_a; row_b]) (Some []) (Some []).

(** All the rows handed to pandas by a save, in the order of [concat]. *)
Definition written {R} (file : option (list R)) (batch : list R) : list R :=
  match file with
  | Some existing => existing ++ batch
  | None => batch
  end.

(** * Properties *)

(** ** The ranking sort *)

Section Ranking.

Lemma insert_desc_perm x l : Permutation (x :: l) (insert_desc x l).
Proof.
  induction l as [|y l IH]; simpl; [reflexivity|].
  destruct (keywords x <? keywords y); [|reflexivity].
  rewrite perm_swap. now apply perm_skip.
Qed.

Lemma sort_desc_perm l : Permutation l (sort_desc l).
Proof.
  induction l as [|x l IH]; simpl; [constructor|].
  rewrite <- insert_desc_perm. now apply perm_skip.
Qed.

Lemma insert_desc_sorted x l :
  StronglySorted ranked l -> StronglySorted ranked (insert_desc x l).
Proof.
  induction 1 as [|y l Hs IH Hall]; simpl.
  - repeat constructor.
  - destruct (keywords x <? keywords y) eqn:E.
    + apply Nat.ltb_lt in E. constructor; [exact IH|].
      rewrite <- insert_desc_perm. constructor; [unfold ranked; lia|exact Hall].
    + apply Nat.ltb_ge in E. constructor; [now constructor|].
      constructor; [exact E|].
      eapply Forall_impl; [|exact Hall]. unfold ranked. intros; lia.
Qed.

Lemma sort_desc_sorted l : StronglySorted ranked (sort_desc l).
Proof.
  induction l; simpl; [constructor|now apply insert_desc_sorted].
Qed.

Lemma insert_desc_stable k x l :
  filter (has_count k) (insert_desc x l) = filter (has_count k) (x :: l).
Proof.
  induction l as [|y l IH]; [reflexivity|].
  cbn [insert_desc]. destruct (keywords x <? keywords y) eqn:E; [|reflexivity].
  apply Nat.ltb_lt in E. cbn [filter] in *. rewrite IH. unfold has_count.
  destruct (keywords x =? k) eqn:Ex, (keywords y =? k) eqn:Ey; try reflexivity.
  apply Nat.eqb_eq in Ex, Ey. lia.
Qed.

Lemma sort_desc_stable k l :
  filter (has_count k) (sort_desc l) = filter (has_count k) l.
Proof.
  induction l as [|x l IH]; [reflexivity|].
  cbn [sort_desc]. rewrite insert_desc_stable. cbn [filter]. now rewrite IH.
Qed.

End Ranking.

(** ** The scan *)

Section Scan.

Lemma save_section_no_content st :
  current_content st = [] -> save_section st = sections st.
Proof.
  unfold save_section. intros ->. destruct (current_section st); [|reflexivity].
  now rewrite andb_false_r.
Qed.

Lemma save_section_Forall (P : entry -> Prop) st :
  (forall num, current_section st = Some num -> current_content st <> [] ->
     3 <= _count_keywords (join_lines (current_content st)) ->
     P (mk_entry num (current_title st) (join_lines (current_content st))
                 (_count_keywords (join_lines (current_content st))))) ->
  Forall P (sections st) -> Forall P (save_section st).
Proof.
  intros Hnew Hall. unfold save_section.
  destruct (current_section st) as [num|]; [|exact Hall].
  destruct (current_content st) as [|l ls] eqn:Ec;
    [now rewrite andb_false_r|].
  destruct (truthy_str num && _); [|exact Hall].
  destruct (3 <=? _) eqn:E; [|exact Hall].
  apply Forall_app. split; [exact Hall|]. constructor; [|constructor].
  apply Hnew; [reflexivity|discriminate|now apply Nat.leb_le].
Qed.

(** A property that every saved entry has, given that its content is made
    of at least one line, none of them a header, holds of all the sections
    of the scan. *)
Lemma scan_Forall (P : entry -> Prop) :
  (forall num ttl lines,
     lines <> [] -> Forall (fun l => is_header l = false) lines ->
     3 <= _count_keywords (join_lines lines) ->
     P (mk_entry num ttl (join_lines lines) (_count_keywords (join_lines lines)))) ->
  forall lines st,
    Forall (fun l => is_header l = false) (current_content st) ->
    Forall P (sections st) ->
    Forall P (save_section (fold_left scan_line lines st)).
Proof.
  intros HP. induction lines as [|l lines IH]; intros st Hc Hst; cbn [fold_left].
  - apply save_section_Forall; [intros; now apply HP|exact Hst].
  - apply IH; unfold scan_line; pose proof (eq_refl (is_header l)) as Hl;
      unfold is_header at 2 in Hl;
      destruct (match_header (strip l)) as [[g1 g2]|].
    + constructor.
    + destruct (section_truthy (current_section st)); [cbn|exact Hc].
      apply Forall_app. split; [exact Hc|]. now repeat constructor.
    + cbn. apply save_section_Forall; [intros; now apply HP|exact Hst].
    + destruct (section_truthy (current_section st)); [cbn|]; exact Hst.
Qed.

Lemma collect_lines_Forall (P : entry -> Prop) :
  (forall num ttl lines,
     lines <> [] -> Forall (fun l => is_header l = false) lines ->
     3 <= _count_keywords (join_lines lines) ->
     P (mk_entry num ttl (join_lines lines) (_count_keywords (join_lines lines)))) ->
  forall lines, Forall P (collect_lines lines).
Proof.
  intros HP lines. apply scan_Forall; [exact HP|constructor|constructor].
Qed.

Lemma scan_no_header lines st :
  (forall l, In l lines -> is_header l = false) ->
  current_section st = None ->
  fold_left scan_line lines st = st.
Proof.
  revert st. induction lines as [|l lines IH]; intros st Hl Hst; [reflexivity|].
  cbn [fold_left].
  assert (E : scan_line st l = st).
  { unfold scan_line. specialize (Hl l (or_introl eq_refl)). unfold is_header in Hl.
    destruct (match_header (strip l)); [discriminate|]. now rewrite Hst. }
  rewrite E. apply IH; [|exact Hst]. intros; apply Hl; now right.
Qed.

Lemma collect_lines_preamble pre rest :
  (forall l, In l pre -> is_header l = false) ->
  collect_lines (pre ++ rest) = collect_lines rest.
Proof.
  intros H. unfold collect_lines. rewrite fold_left_app.
  now rewrite (scan_no_header pre scan_init H eq_refl).
Qed.

Lemma scan_header st h :
  is_header h = true ->
  exists num ttl, scan_line st h = mk_scan (save_section st) (Some num) ttl [].
Proof.
  unfold is_header, scan_line. destruct (match_header (strip h)) as [[g1 g2]|];
    [|discriminate]. intros _. now eexists _, _.
Qed.

Lemma collect_lines_header_header pre h1 h2 post :
  is_header h1 = true -> is_header h2 = true ->
  collect_lines (pre ++ h1 :: h2 :: post) = collect_lines (pre ++ h2 :: post).
Proof.
  intros H1 H2. unfold collect_lines. rewrite !fold_left_app. cbn [fold_left].
  set (st := fold_left scan_line pre scan_init).
  destruct (scan_header st h1 H1) as (n1 & t1 & ->).
  f_equal. f_equal. unfold scan_line. unfold is_header in H2.
  destruct (match_header (strip h2)) as [[g1 g2]|]; [|discriminate].
  f_equal. now apply save_section_no_content.
Qed.

Lemma collect_lines_header_last pre h :
  is_header h = true -> collect_lines (pre ++ [h]) = collect_lines pre.
Proof.
  intros H. unfold collect_lines. rewrite fold_left_app. cbn [fold_left].
  destruct (scan_header (fold_left scan_line pre scan_init) h H) as (n & t & ->).
  now apply save_section_no_content.
Qed.

Lemma split_lines_not_nil s : split_lines s <> [].
Proof.
  destruct s as [|c s]; cbn; [discriminate|].
  destruct (Ascii.eqb c newline); [discriminate|].
  destruct (split_lines s); discriminate.
Qed.

Lemma split_lines_app t1 t2 :
  split_lines (t1 ++ String newline t2) = split_lines t1 ++ split_lines t2.
Proof.
  induction t1 as [|c t1 IH]; cbn [append split_lines].
  - now rewrite Ascii.eqb_refl.
  - destruct (Ascii.eqb c newline); [now rewrite IH|].
    rewrite IH. destruct (split_lines t1) eqn:E; [|reflexivity].
    now apply split_lines_not_nil in E.
Qed.

End Scan.

(** ** Counting keywords *)

Section Counting.

Lemma prefix_cons a b x y :
  prefix (String a x) (String b y) = Ascii.eqb a b && prefix x y.
Proof.
  cbn. destruct (ascii_dec a b) as [->|N].
  - now rewrite Ascii.eqb_refl.
  - apply Ascii.eqb_neq in N. now rewrite N.
Qed.

Lemma prefix_app a t : prefix a (a ++ t) = true.
Proof.
  induction a as [|c a IH]; cbn [append]; [now destruct t|].
  now rewrite prefix_cons, Ascii.eqb_refl.
Qed.

Lemma prefix_inv a s : prefix a s = true -> exists t, s = (a ++ t)%string.
Proof.
  revert s. induction a as [|c a IH]; intros s H; [now exists s|].
  destruct s as [|d s]; [discriminate|]. rewrite prefix_cons in H.
  apply andb_prop in H as [E H]. apply Ascii.eqb_eq in E as ->.
  destruct (IH _ H) as [t ->]. now exists t.
Qed.

Lemma prefix_of_shorter b a t :
  prefix a (b ++ t) = true -> String.length b <= String.length a ->
  prefix b a = true.
Proof.
  revert a. induction b as [|c b IH]; intros a H L; [now destruct a|].
  destruct a as [|d a]; [cbn in L; lia|].
  cbn [append] in H. rewrite prefix_cons in *.
  apply andb_prop in H as [E H]. apply Ascii.eqb_eq in E as ->.
  rewrite Ascii.eqb_refl. cbn in L. apply IH; [exact H|lia].
Qed.

Lemma drop_app j a t :
  j <= String.length a -> drop j (a ++ t) = (drop j a ++ t)%string.
Proof.
  revert a. induction j as [|j IH]; intros a L; [reflexivity|].
  destruct a as [|c a]; [cbn in L; lia|]. cbn in *. apply IH. lia.
Qed.

Lemma drop_length j a : String.length (drop j a) = String.length a - j.
Proof.
  revert a. induction j as [|j IH]; intros a; [cbn; lia|].
  destruct a as [|c a]; [reflexivity|]. cbn. apply IH.
Qed.

(** Two overlapping occurrences of a word exhibit a border of it. *)
Lemma overlap_border kw s j :
  prefix kw s = true -> prefix kw (drop j s) = true ->
  j <= String.length kw -> prefix (drop j kw) kw = true.
Proof.
  intros H1 H2 L. apply prefix_inv in H1 as [t ->].
  rewrite drop_app in H2 by exact L.
  apply prefix_of_shorter with (t := t); [exact H2|].
  rewrite drop_length. lia.
Qed.

Lemma borderless_no_overlap kw s j :
  borderless kw = true -> prefix kw s = true ->
  0 < j < String.length kw -> prefix kw (drop j s) = false.
Proof.
  intros B H1 L. destruct (prefix kw (drop j s)) eqn:H2; [|reflexivity].
  assert (Hb : prefix (drop j kw) kw = true)
    by (apply overlap_border with (s := s); [assumption..|lia]).
  unfold borderless in B. rewrite forallb_forall in B.
  specialize (B j). rewrite Hb in B. cbn in B. symmetry. apply B.
  apply in_seq. lia.
Qed.

(** The left-to-right scan of [str.count] misses nothing when the word
    cannot overlap itself. *)
Lemma count_from_occurrences kw s skip :
  kw <> EmptyString -> borderless kw = true ->
  (forall i, i < skip -> prefix kw (drop i s) = false) ->
  count_from kw s skip = occurrences kw s.
Proof.
  intros Hne B. revert skip. induction s as [|c s IH]; intros skip Hskip.
  - cbn. destruct kw; [contradiction|reflexivity].
  - cbn [count_from occurrences]. destruct skip as [|k].
    + destruct (prefix kw (String c s)) eqn:E.
      * cbn [Nat.add]. f_equal. apply IH. intros i Hi.
        apply (borderless_no_overlap kw (String c s) (S i) B E). lia.
      * apply IH. intros i Hi. lia.
    + assert (E0 := Hskip 0 ltac:(lia)). cbn [drop] in E0. rewrite E0.
      cbn [Nat.add]. apply IH.
      intros i Hi. apply (Hskip (S i)). lia.
Qed.

Lemma count_occurrences kw s :
  kw <> EmptyString -> borderless kw = true ->
  Py.count s kw = occurrences kw s.
Proof.
  intros Hne B. unfold Py.count. destruct kw as [|c kw]; [contradiction|].
  apply count_from_occurrences; [exact Hne|exact B|]. intros i Hi. lia.
Qed.

Lemma ci_occurs_here_prefix kw s :
  upper kw = kw -> ci_occurs_here kw s = prefix kw (upper s).
Proof.
  unfold ci_occurs_here. revert s. induction kw as [|a kw IH]; intros s U.
  - destruct s; reflexivity.
  - rewrite U. cbn [upper] in U. injection U as Ua Uk.
    destruct s as [|b s]; [reflexivity|].
    cbn [String.length substring upper]. rewrite prefix_cons.
    cbn [String.eqb]. rewrite <- (IH s Uk), Uk.
    now rewrite (Ascii.eqb_sym a).
Qed.

Lemma ci_occurrences_upper kw s :
  upper kw = kw -> ci_occurrences kw s = occurrences kw (upper s).
Proof.
  intros U. induction s as [|c s IH]; cbn [ci_occurrences occurrences upper].
  - now rewrite ci_occurs_here_prefix.
  - rewrite ci_occurs_here_prefix by exact U. cbn [upper]. now rewrite IH.
Qed.

(** What the ten keywords have in common. *)
Lemma keyword_shape kw :
  In kw RFC_KEYWORDS ->
  kw <> EmptyString /\ borderless kw = true /\ upper kw = kw.
Proof.
  intros H. repeat (destruct H as [<-|H]; [repeat split; discriminate|]).
  destruct H.
Qed.

Lemma count_keyword_ci kw s :
  In kw RFC_KEYWORDS -> Py.count (upper s) kw = ci_occurrences kw s.
Proof.
  intros H. destruct (keyword_shape kw H) as (Hne & B & U).
  rewrite count_occurrences by assumption. now rewrite ci_occurrences_upper.
Qed.

End Counting.

(** ** Document number *)

Section DocumentNumber.

Lemma take_drop_while p s : s = (take_while p s ++ drop_while p s)%string.
Proof.
  induction s as [|c s IH]; [reflexivity|]. cbn.
  destruct (p c); [cbn; now rewrite <- IH|reflexivity].
Qed.

Lemma all_chars_take_while p s : all_chars p (take_while p s) = true.
Proof.
  induction s as [|c s IH]; [reflexivity|]. cbn.
  destruct (p c) eqn:E; [cbn; now rewrite E|reflexivity].
Qed.

Lemma head_drop_while p s : head_is p (drop_while p s) = false.
Proof.
  induction s as [|c s IH]; [reflexivity|]. cbn.
  destruct (p c) eqn:E; [exact IH|cbn; exact E].
Qed.

Lemma drop_while_app p b r :
  all_chars p b = true -> head_is p r = false -> drop_while p (b ++ r) = r.
Proof.
  intros Hb Hr. induction b as [|c b IH]; cbn [append].
  - destruct r as [|d r]; [reflexivity|]. cbn in *. now rewrite Hr.
  - cbn in *. apply andb_prop in Hb as [-> Hb]. now apply IH.
Qed.

Lemma take_while_app p b r :
  all_chars p b = true -> head_is p r = false -> take_while p (b ++ r) = b.
Proof.
  intros Hb Hr. induction b as [|c b IH]; cbn [append].
  - destruct r as [|d r]; [reflexivity|]. cbn in *. now rewrite Hr.
  - cbn in *. apply andb_prop in Hb as [-> Hb]. f_equal. now apply IH.
Qed.

Lemma digit_not_space c : isdigit c = true -> isspace c = false.
Proof.
  unfold isdigit, isspace. intros H. apply andb_prop in H as [L U].
  apply Nat.leb_le in L, U.
  apply orb_false_iff. split; apply andb_false_iff; right; apply Nat.leb_gt; lia.
Qed.

Lemma match_rfc_here_sound s d : match_rfc_here s = Some d -> rfc_occurrence s d.
Proof.
  unfold match_rfc_here. destruct s as [|a [|b [|c t]]]; try discriminate.
  destruct (_ && _ && _) eqn:E; [|discriminate].
  apply andb_prop in E as [E Ec]. apply andb_prop in E as [Ea Eb].
  apply Ascii.eqb_eq in Ea, Eb, Ec.
  destruct (String.eqb _ _) eqn:Ed; [discriminate|]. intros [= <-].
  exists (String a (String b (String c EmptyString))), (take_while isspace t),
         (drop_while isdigit (drop_while isspace t)).
  repeat split.
  - cbn [append]. do 3 f_equal. rewrite <- take_drop_while. apply take_drop_while.
  - cbn. now rewrite Ea, Eb, Ec.
  - apply all_chars_take_while.
  - apply all_chars_take_while.
  - intros N. rewrite N in Ed. discriminate.
  - apply head_drop_while.
Qed.

Lemma match_rfc_here_complete s d : rfc_occurrence s d -> match_rfc_here s = Some d.
Proof.
  intros (letters & blanks & rest & -> & Hl & Hb & Hd & Hne & Hr).
  destruct letters as [|a [|b [|c [|x l]]]]; try discriminate.
  cbn in Hl. injection Hl as Ea Eb Ec. cbn [append match_rfc_here].
  rewrite Ea, Eb, Ec. cbn [Ascii.eqb Bool.eqb andb].
  assert (Hhead : head_is isspace (d ++ rest) = false).
  { destruct d as [|x d]; [contradiction|]. cbn in *.
    apply andb_prop in Hd as [Hx _]. now apply digit_not_space. }
  rewrite (drop_while_app _ _ _ Hb Hhead), (take_while_app _ _ _ Hd Hr).
  destruct d; [contradiction|reflexivity].
Qed.

Lemma search_rfc_unfold s :
  search_rfc s =
  match match_rfc_here s with
  | Some g => Some g
  | None => match s with EmptyString => None | String _ s' => search_rfc s' end
  end.
Proof. destruct s; reflexivity. Qed.

Lemma search_rfc_first text i d :
  match_rfc_here (drop i text) = Some d ->
  (forall j, j < i -> match_rfc_here (drop j text) = None) ->
  search_rfc text = Some d.
Proof.
  revert text. induction i as [|i IH]; intros text Hi Hbefore;
    rewrite search_rfc_unfold.
  - cbn in Hi. now rewrite Hi.
  - assert (E0 := Hbefore 0 ltac:(lia)). cbn [drop] in E0. rewrite E0.
    destruct text as [|c text]; [discriminate Hi|].
    apply IH; [exact Hi|]. intros j Hj. apply (Hbefore (S j)). lia.
Qed.

Lemma search_rfc_none text :
  (forall j, match_rfc_here (drop j text) = None) -> search_rfc text = None.
Proof.
  induction text as [|c text IH]; intros Hn; rewrite search_rfc_unfold.
  - reflexivity.
  - assert (E0 := Hn 0). cbn [drop] in E0. rewrite E0.
    apply IH. intros j. apply (Hn (S j)).
Qed.

Lemma no_occurrence_no_match s :
  (forall d, ~ rfc_occurrence s d) -> match_rfc_here s = None.
Proof.
  intros H. destruct (match_rfc_here s) as [d|] eqn:E; [|reflexivity].
  now apply match_rfc_here_sound, H in E.
Qed.

End DocumentNumber.

(** ** The header pattern *)

Section HeaderPattern.

Lemma append_assoc (a b c : string) : ((a ++ b) ++ c = a ++ (b ++ c))%string.
Proof. induction a as [|x a IH]; cbn; [reflexivity|now rewrite IH]. Qed.

Lemma append_nil_r (a : string) : (a ++ "")%string = a.
Proof. induction a as [|x a IH]; cbn; [reflexivity|now rewrite IH]. Qed.

Lemma dotted_cons_digit c n :
  isdigit c = true -> dotted_number n -> dotted_number (String c n).
Proof.
  intros Hc [d Hne Hd | d n' Hne Hd Hn].
  - apply dotted_one; [discriminate|cbn; now rewrite Hc].
  - apply (dotted_more (String c d) n'); [discriminate|cbn; now rewrite Hc|exact Hn].
Qed.

Lemma dotted_head n : dotted_number n -> head_is isdigit n = true.
Proof.
  intros [d Hne Hd | d n' Hne Hd _]; (destruct d; [contradiction|]);
    cbn in *; now apply andb_prop in Hd as [-> _].
Qed.

Lemma dotted_single c : isdigit c = true -> dotted_number (String c EmptyString).
Proof. intros Hc. apply dotted_one; [discriminate|cbn; now rewrite Hc]. Qed.

(** What [dotted_tail] consumes continues a dotted number. *)
Lemma dotted_tail_sound s :
  s = (fst (dotted_tail s) ++ snd (dotted_tail s))%string /\
  (forall c, isdigit c = true -> dotted_number (String c (fst (dotted_tail s)))) /\
  (head_is isdigit s = true -> dotted_number (fst (dotted_tail s))).
Proof.
  induction s as [|x s IH].
  - cbn. repeat split; [|discriminate]. intros c Hc. now apply dotted_single.
  - destruct IH as (Eq & Htail & Hhead).
    assert (Hstop : isdigit x = false ->
              String x s = (EmptyString ++ String x s)%string /\
              (forall c, isdigit c = true -> dotted_number (String c EmptyString)) /\
              (head_is isdigit (String x s) = true -> dotted_number EmptyString)).
    { intros Ex. split; [reflexivity|]. split; [intros; now apply dotted_single|].
      cbn. congruence. }
    cbn [dotted_tail]. destruct (isdigit x) eqn:Ex.
    + destruct (dotted_tail s) as [a r]. cbn [fst snd] in *.
      assert (Hxa : dotted_number (String x a)) by now apply Htail.
      split; [cbn; now f_equal|].
      split; [intros c Hc; now apply dotted_cons_digit|now intros _].
    + destruct (Ascii.eqb x ".") eqn:Edot; [|now apply Hstop].
      destruct s as [|d s']; [now apply Hstop|].
      destruct (isdigit d) eqn:Ed; [|now apply Hstop].
      destruct (dotted_tail (String d s')) as [a r]. cbn [fst snd] in *.
      apply Ascii.eqb_eq in Edot. subst x.
      split; [cbn; now f_equal|]. split.
      * intros c Hc. apply (dotted_more (String c EmptyString) a);
          [discriminate|cbn; now rewrite Hc|now apply Hhead].
      * cbn. congruence.
Qed.

Lemma match_header_sound s g : match_header s = Some g -> header_shape s.
Proof.
  unfold match_header. destruct s as [|c s']; [discriminate|].
  destruct (isdigit c) eqn:Ec; [|discriminate].
  destruct (dotted_tail_sound s') as (Eq & Htail & _).
  destruct (dotted_tail s') as [a r1]. cbn [fst snd] in *.
  set (pick := match r1 with
               | EmptyString => (EmptyString, r1)
               | String d r => if Ascii.eqb d "." then (String d EmptyString, r)
                               else (EmptyString, r1)
               end).
  assert (Hpick : r1 = (fst pick ++ snd pick)%string /\
                  (fst pick = EmptyString \/ fst pick = ".")).
  { subst pick. destruct r1 as [|d r]; [now split; [|left]|].
    destruct (Ascii.eqb d ".") eqn:Ed; [|now split; [|left]].
    apply Ascii.eqb_eq in Ed. subst d. now split; [|right]. }
  destruct pick as [dot r2]. cbn [fst snd] in Hpick. destruct Hpick as [Er1 Hdot].
  pose proof (take_drop_while isspace r2) as Er2.
  pose proof (all_chars_take_while isspace r2) as Hblank.
  destruct (take_while isspace r2) as [|b bs]; [discriminate|].
  destruct (drop_while isspace r2) as [|t ts].
  - destruct bs as [|b2 bs]; [discriminate|]. intros _.
    exists (String c a), dot, (String b EmptyString), (String b2 bs).
    split.
    + rewrite Eq, Er1, Er2. cbn [append]. now rewrite append_nil_r.
    + repeat split; try discriminate; try assumption; [now apply Htail|].
      cbn in *. apply andb_prop in Hblank as [-> _]. reflexivity.
  - intros _. exists (String c a), dot, (String b bs), (String t ts).
    split; [now rewrite Eq, Er1, Er2|].
    repeat split; try discriminate; try assumption. now apply Htail.
Qed.

Lemma take_while_app_all p b t :
  all_chars p b = true ->
  take_while p (b ++ t) = (b ++ take_while p t)%string /\
  drop_while p (b ++ t) = drop_while p t.
Proof.
  induction b as [|c b IH]; cbn; [now split|].
  intros Hb. apply andb_prop in Hb as [-> Hb]. destruct (IH Hb) as [-> ->].
  now split.
Qed.

(** Where the numeric group must end: not before a digit, nor before a dot
    that a digit follows. *)
Lemma dotted_tail_stop rest :
  head_is isdigit rest = false ->
  (forall r, rest = String "." r -> head_is isdigit r = false) ->
  dotted_tail rest = (EmptyString, rest).
Proof.
  intros Hd Hdot. destruct rest as [|x r]; [reflexivity|]. cbn in Hd |- *.
  rewrite Hd. destruct (Ascii.eqb x ".") eqn:Ex; [|reflexivity].
  apply Ascii.eqb_eq in Ex. subst x. specialize (Hdot r eq_refl).
  destruct r as [|d r]; [reflexivity|]. cbn in Hdot. now rewrite Hdot.
Qed.

Lemma dotted_tail_digits d rest a r :
  all_chars isdigit d = true -> dotted_tail rest = (a, r) ->
  dotted_tail (d ++ rest) = ((d ++ a)%string, r).
Proof.
  intros Hd Hrest. induction d as [|c d IH]; [exact Hrest|].
  cbn in Hd |- *. apply andb_prop in Hd as [-> Hd]. now rewrite (IH Hd).
Qed.

Lemma dotted_tail_dot rest a r :
  head_is isdigit rest = true -> dotted_tail rest = (a, r) ->
  dotted_tail (String "." rest) = (String "." a, r).
Proof.
  intros Hh Hrest. destruct rest as [|x rest]; [discriminate|].
  cbn [dotted_tail] in *. cbn in Hh. rewrite Hh in *.
  change (isdigit ".") with false. cbn [Ascii.eqb Bool.eqb andb].
  destruct (dotted_tail rest) as [a' r']. now injection Hrest as <- <-.
Qed.

Lemma head_app p a b : head_is p a = true -> head_is p (a ++ b) = true.
Proof. destruct a; [discriminate|exact (fun H => H)]. Qed.

Lemma dotted_tail_complete n rest :
  dotted_number n ->
  head_is isdigit rest = false ->
  (forall r, rest = String "." r -> head_is isdigit r = false) ->
  dotted_tail (n ++ rest) = (n, rest).
Proof.
  intros Hn Hd Hdot. induction Hn as [d Hne Hdig | d n Hne Hdig Hn IH].
  - rewrite (dotted_tail_digits d rest EmptyString rest Hdig);
      [now rewrite append_nil_r|now apply dotted_tail_stop].
  - rewrite !append_assoc.
    rewrite (dotted_tail_digits d _ ("." ++ n)%string rest Hdig); [reflexivity|].
    apply dotted_tail_dot; [|exact IH]. now apply head_app, dotted_head.
Qed.

Lemma space_not_digit c : isspace c = true -> isdigit c = false.
Proof.
  intros Hs. destruct (isdigit c) eqn:Ed; [|reflexivity].
  apply digit_not_space in Ed. congruence.
Qed.

Lemma match_header_complete s : header_shape s -> match_header s <> None.
Proof.
  intros (num & dot & blanks & title & -> & Hnum & Hdot & Hbne & Hb & Htne).
  pose proof (dotted_head num Hnum) as Hhead.
  destruct blanks as [|b bs]; [contradiction|]. cbn in Hb.
  apply andb_prop in Hb as [Hb Hbs].
  assert (Hbd : isdigit b = false) by now apply space_not_digit.
  assert (Hbdot : Ascii.eqb b "." = false).
  { apply Ascii.eqb_neq. intros ->. discriminate Hb. }
  assert (Htail : dotted_tail (num ++ dot ++ String b bs ++ title)
                  = (num, (dot ++ String b bs ++ title)%string)).
  { apply dotted_tail_complete; [exact Hnum| |].
    - destruct Hdot as [-> | ->]; [exact Hbd|reflexivity].
    - destruct Hdot as [-> | ->]; cbn.
      + intros r [= -> _]. discriminate Hb.
      + now intros r [= <-]. }
  destruct num as [|c n']; [discriminate|]. cbn in Hhead.
  cbn [append] in Htail |- *. cbn [dotted_tail] in Htail. rewrite Hhead in Htail.
  unfold match_header. rewrite Hhead.
  destruct (dotted_tail _) as [a r1]. injection Htail as -> ->.
  assert (Hpick : match (dot ++ String b (bs ++ title))%string with
                  | EmptyString => (EmptyString, (dot ++ String b (bs ++ title))%string)
                  | String d r => if Ascii.eqb d "." then (String d EmptyString, r)
                                  else (EmptyString, (dot ++ String b (bs ++ title))%string)
                  end = (dot, String b (bs ++ title))).
  { destruct Hdot as [-> | ->]; cbn; [now rewrite Hbdot|reflexivity]. }
  rewrite Hpick. cbn [take_while drop_while]. rewrite Hb.
  destruct (take_while_app_all isspace bs title Hbs) as [-> ->].
  pose proof (take_drop_while isspace title) as Et.
  destruct (drop_while isspace title) as [|t ts];
    [|destruct (bs ++ take_while isspace title)%string; discriminate].
  rewrite append_nil_r in Et. rewrite <- Et.
  destruct title as [|t ts]; [contradiction|].
  destruct bs; discriminate.
Qed.

Lemma match_header_shape s : match_header s <> None <-> header_shape s.
Proof.
  split; [|apply match_header_complete].
  destruct (match_header s) as [g|] eqn:E; [|congruence].
  intros _. now apply (match_header_sound s g).
Qed.

Lemma is_header_shape line : is_header line = true <-> header_shape (strip line).
Proof.
  rewrite <- match_header_shape. unfold is_header.
  destruct (match_header (strip line)); split; congruence.
Qed.

Lemma not_header_shape line : is_header line = false <-> ~ header_shape (strip line).
Proof.
  rewrite <- is_header_shape. destruct (is_header line); split; congruence.
Qed.

End HeaderPattern.

(** ** Title *)

Section Title.

Lemma extract_title_first lines i line :
  nth_error lines i = Some line -> title_candidate line = true ->
  (forall j l, j < i -> nth_error lines j = Some l -> title_candidate l = false) ->
  _extract_title lines = slice_to 100 (strip line).
Proof.
  revert lines. induction i as [|i IH]; intros [|l0 lines] Hi Hq Hbefore;
    try discriminate.
  - injection Hi as ->. cbn [_extract_title]. unfold title_candidate, startswith in *.
    now rewrite Hq.
  - cbn [_extract_title]. assert (E0 := Hbefore 0 l0 ltac:(lia) eq_refl).
    unfold title_candidate, startswith in *. rewrite E0.
    apply IH; [exact Hi|exact Hq|]. intros j l Hj Hl.
    apply (Hbefore (S j) l); [lia|exact Hl].
Qed.

Lemma nth_error_firstn_lt {A} n (l : list A) i :
  i < n -> nth_error (firstn n l) i = nth_error l i.
Proof.
  revert l i. induction n as [|n IH]; intros l i Hi; [lia|].
  destruct l as [|x l]; [reflexivity|]. destruct i as [|i]; [reflexivity|].
  cbn. apply IH. lia.
Qed.

End Title.

(** ** Stage operations *)

Section StageFacts.
Variable json_loads : string -> option Json.value.
Variable R : Type.
Variable mk : nat -> Json.value -> option R.

Lemma build_length items : forall k rs,
  build mk k items = Some rs -> List.length rs = List.length items.
Proof.
  induction items as [|item items IH]; intros k rs; cbn [build].
  - now intros [= <-].
  - destruct (mk k item); [|discriminate].
    destruct (build mk (S k) items) as [rs'|] eqn:E; [|discriminate].
    intros [= <-]. cbn. f_equal. now apply (IH (S k)).
Qed.

Lemma build_total items :
  (forall k item, In item items -> mk k item <> None) ->
  forall k, exists rs, build mk k items = Some rs.
Proof.
  induction items as [|item items IH]; intros Hmk k; cbn [build].
  - now exists [].
  - destruct (mk k item) as [r|] eqn:E.
    + destruct (IH (fun k' i Hi => Hmk k' i (or_intror Hi)) (S k)) as [rs ->].
      now eexists.
    + exfalso. apply (Hmk k item); [now left|exact E].
Qed.

Lemma build_fails items :
  (exists item, In item items /\ forall k, mk k item = None) ->
  forall k, build mk k items = None.
Proof.
  intros (bad & Hin & Hbad). induction items as [|item items IH]; intros k;
    [destruct Hin|]. cbn [build]. destruct Hin as [->|Hin].
  - now rewrite Hbad.
  - destruct (mk k item); [|reflexivity]. now rewrite (IH Hin).
Qed.

Lemma run_stage_raised : run_stage json_loads mk Raised = [].
Proof. reflexivity. Qed.

Lemma run_stage_no_array text :
  search_array text = None -> run_stage json_loads mk (Text text) = [].
Proof. unfold run_stage, try_stage. now intros ->. Qed.

Lemma run_stage_not_json text m :
  search_array text = Some m -> json_loads m = None ->
  run_stage json_loads mk (Text text) = [].
Proof. unfold run_stage, try_stage. now intros -> ->. Qed.

Lemma run_stage_records text m items :
  search_array text = Some m -> json_loads m = Some (Json.Arr items) ->
  (forall k item, In item items -> mk k item <> None) ->
  List.length (run_stage json_loads mk (Text text)) = List.length items.
Proof.
  unfold run_stage, try_stage. intros -> -> Hmk. cbn [Json.iterate].
  destruct (build_total items Hmk 0) as [rs E]. rewrite E.
  now apply build_length in E.
Qed.

Lemma run_stage_bad_item text m items :
  search_array text = Some m -> json_loads m = Some (Json.Arr items) ->
  (exists item, In item items /\ forall k, mk k item = None) ->
  run_stage json_loads mk (Text text) = [].
Proof.
  unfold run_stage, try_stage. intros -> -> Hbad. cbn [Json.iterate].
  now rewrite build_fails.
Qed.

End StageFacts.

Section RecordFacts.
Variables uuid8 now_iso : nat -> string.

Lemma property_of_object rfc k item :
  Json.is_object item = true -> property_of uuid8 now_iso rfc k item <> None.
Proof. destruct item; discriminate. Qed.

Lemma proposition_of_object k item :
  Json.is_object item = true -> proposition_of uuid8 now_iso k item <> None.
Proof. destruct item; discriminate. Qed.

Lemma formula_of_object k item :
  Json.is_object item = true -> joinable_operators item = true ->
  formula_of uuid8 now_iso k item <> None.
Proof.
  destruct item; try discriminate. intros _. unfold joinable_operators, formula_of.
  cbn [Json.get]. destruct (Json.comma_join _); discriminate.
Qed.

Lemma property_of_other rfc k item :
  Json.is_object item = false -> property_of uuid8 now_iso rfc k item = None.
Proof. destruct item; try discriminate; reflexivity. Qed.

Lemma proposition_of_other k item :
  Json.is_object item = false -> proposition_of uuid8 now_iso k item = None.
Proof. destruct item; try discriminate; reflexivity. Qed.

Lemma formula_of_other k item :
  Json.is_object item = false -> formula_of uuid8 now_iso k item = None.
Proof. destruct item; try discriminate; reflexivity. Qed.

End RecordFacts.

Lemma forallb_false_witness {A} (p : A -> bool) l :
  forallb p l = false -> exists x, In x l /\ p x = false.
Proof.
  induction l as [|a l IH]; [discriminate|]. cbn.
  destruct (p a) eqn:E; cbn.
  - intros H. destruct (IH H) as (x & Hx & Hp). exists x. now split; [right|].
  - intros _. exists a. now split; [left|].
Qed.

(** ** Tables *)

Section Tables.
Context {R : Type} `{Row R}.

Lemma existsb_same_id (r : R) rows :
  existsb (same_id r) rows = true <-> In (row_id r) (ids rows).
Proof.
  unfold ids. rewrite existsb_exists, in_map_iff. unfold same_id.
  split; intros (x & Hx & Hy).
  - exists x. apply String.eqb_eq in Hy. now split.
  - exists x. split; [exact Hy|]. apply String.eqb_eq. now symmetry.
Qed.

Lemma drop_duplicates_last_ids rows i :
  In i (ids (drop_duplicates_last rows)) <-> In i (ids rows).
Proof.
  induction rows as [|r rows IH]; [reflexivity|]. cbn [drop_duplicates_last].
  destruct (existsb (same_id r) rows) eqn:E.
  - rewrite IH. cbn. split; [now right|]. intros [<-|Hi]; [|exact Hi].
    now apply existsb_same_id.
  - cbn. now rewrite IH.
Qed.

Lemma drop_duplicates_last_NoDup rows :
  NoDup (ids (drop_duplicates_last rows)).
Proof.
  induction rows as [|r rows IH]; [constructor|]. cbn [drop_duplicates_last].
  destruct (existsb (same_id r) rows) eqn:E; [exact IH|].
  change (NoDup (row_id r :: ids (drop_duplicates_last rows))).
  constructor; [|exact IH]. rewrite drop_duplicates_last_ids.
  intros Hin. apply existsb_same_id in Hin. congruence.
Qed.

Lemma drop_duplicates_last_id rows :
  NoDup (ids rows) -> drop_duplicates_last rows = rows.
Proof.
  induction rows as [|r rows IH]; [reflexivity|]. cbn. intros Hnd.
  inversion Hnd as [|? ? Hnotin Hnd']; subst.
  destruct (existsb (same_id r) rows) eqn:E.
  - now apply existsb_same_id in E.
  - f_equal. now apply IH.
Qed.

Lemma drop_duplicates_last_app existing batch :
  drop_duplicates_last (existing ++ batch) =
  filter (untouched batch) (drop_duplicates_last existing)
  ++ drop_duplicates_last batch.
Proof.
  induction existing as [|r rows IH]; [reflexivity|].
  cbn [app drop_duplicates_last]. rewrite existsb_app.
  destruct (existsb (same_id r) rows); cbn [orb]; [exact IH|].
  cbn [filter]. unfold untouched at 1.
  destruct (existsb (same_id r) batch); cbn [negb]; [exact IH|].
  cbn [app]. now rewrite IH.
Qed.

(** Every row that is kept is the last one written with its id. *)
Lemma drop_duplicates_last_keeps_last rows r :
  In r (drop_duplicates_last rows) ->
  exists before after,
    rows = before ++ r :: after /\ ~ In (row_id r) (ids after).
Proof.
  induction rows as [|x rows IH]; [intros []|]. cbn [drop_duplicates_last].
  destruct (existsb (same_id x) rows) eqn:E.
  - intros Hin. destruct (IH Hin) as (b & a & -> & Ha).
    now exists (x :: b), a.
  - intros [->|Hin].
    + exists [], rows. split; [reflexivity|]. intros Hi.
      apply existsb_same_id in Hi. congruence.
    + destruct (IH Hin) as (b & a & -> & Ha). now exists (x :: b), a.
Qed.

Lemma filter_untouched_absent (r : R) rows :
  ~ In (row_id r) (ids rows) -> filter (untouched [r]) rows = rows.
Proof.
  induction rows as [|x rows IH]; [reflexivity|]. cbn. intros Hn.
  unfold untouched at 1. cbn. unfold same_id at 1.
  destruct (String.eqb (row_id x) (row_id r)) eqn:E.
  - apply String.eqb_eq in E. exfalso. apply Hn. now left.
  - cbn. f_equal. apply IH. intros Hi. apply Hn. now right.
Qed.

Lemma merged_upsert existing (r : R) :
  NoDup (ids existing) ->
  merged (Some existing) [r] = filter (untouched [r]) existing ++ [r].
Proof.
  intros Hnd. unfold merged. rewrite drop_duplicates_last_app.
  now rewrite (drop_duplicates_last_id existing Hnd).
Qed.

Lemma merged_append existing (r : R) :
  NoDup (ids existing) -> ~ In (row_id r) (ids existing) ->
  merged (Some existing) [r] = existing ++ [r].
Proof.
  intros Hnd Hn. rewrite merged_upsert by exact Hnd.
  now rewrite filter_untouched_absent.
Qed.

Lemma merged_NoDup file batch :
  (file = None -> NoDup (ids batch)) -> NoDup (ids (merged file batch)).
Proof.
  destruct file as [existing|]; cbn; intros Hb.
  - apply drop_duplicates_last_NoDup.
  - now apply Hb.
Qed.

End Tables.

Lemma extract_sections_ranked_parts text :
  Forall (fun e => 3 <= keywords e) (_extract_property_sections text) /\
  StronglySorted ranked (_extract_property_sections text).
Proof.
  unfold _extract_property_sections, extract_lines. split.
  - eapply Permutation_Forall; [apply sort_desc_perm|].
    apply collect_lines_Forall. intros; assumption.
  - apply sort_desc_sorted.
Qed.

(** * The claims *)

(** C1, as the code has it.  On the sample text the content of section "1",
    [MUST MUST SHOULD], holds three keyword occurrences, so the section
    reaches the threshold of 3 and is kept; section "2" has count 4.  The
    returned list is section "2" followed by section "1". *)
Theorem sample_text_sections :
  _count_keywords "MUST MUST SHOULD" = 3 /\
  _extract_property_sections sample_text =
    [ mk_entry "2" "Rules" (join_lines ["MUST SHOULD MAY RECOMMENDED"; ""]) 4;
      mk_entry "1" "Intro" "MUST MUST SHOULD" 3 ].
Proof. split; vm_compute; reflexivity. Qed.

(** C1, as stated, fails: the keyword count of section "1" is not 1, and the
    returned list is not made of a single section. *)
Lemma sample_text_sections_not_single :
  _count_keywords "MUST MUST SHOULD" <> 1 /\
  ~ (exists e, _extract_property_sections sample_text = [e]).
Proof.
  split.
  - vm_compute. discriminate.
  - intros [e He]. vm_compute in He. discriminate.
Qed.

(** C2.  Every returned section has a keyword count of at least 3, the list
    is in non-increasing order of keyword count, and for each count the
    sections with that count appear in the order in which the scan met them
    (the sort is stable). *)
Theorem extract_sections_ranked (text : string) :
  Forall (fun e => 3 <= keywords e) (_extract_property_sections text) /\
  StronglySorted ranked (_extract_property_sections text) /\
  forall k,
    filter (has_count k) (_extract_property_sections text) =
    filter (has_count k) (collect_lines (split_lines text)).
Proof.
  unfold _extract_property_sections, extract_lines. repeat split.
  - eapply Permutation_Forall; [apply sort_desc_perm|].
    apply collect_lines_Forall. intros; assumption.
  - apply sort_desc_sorted.
  - intros k. apply sort_desc_stable.
Qed.









(** ** The store *)

Section Upsert.
Context {R : Type} `{Row R}.

Lemma untouched_single (r x : R) : untouched [r] x = negb (same_id x r).
Proof. unfold untouched. cbn. now rewrite orb_false_r. Qed.

Lemma upsert_single file existing (r : R) :
  file = Some existing -> NoDup (ids existing) ->
  Some (merged file [r])
    = Some (filter (fun x => negb (same_id x r)) existing ++ [r]) /\
  (~ In (row_id r) (ids existing) ->
   Some (merged file [r]) = Some (existing ++ [r])).
Proof.
  intros -> Hnd. split.
  - rewrite merged_upsert by exact Hnd. do 2 f_equal.
    apply filter_ext. intros x. apply untouched_single.
  - intros Hn. now rewrite merged_append.
Qed.

Lemma NoDup_keeps_last (rows : list R) r :
  NoDup (ids rows) -> In r rows ->
  exists before after,
    rows = before ++ r :: after /\ ~ In (row_id r) (ids after).
Proof.
  intros Hnd Hin. rewrite <- (drop_duplicates_last_id rows Hnd) in Hin.
  now apply drop_duplicates_last_keeps_last.
Qed.

Lemma merged_unique file batch :
  (file = None -> NoDup (ids batch)) ->
  NoDup (ids (merged file batch)) /\
  forall r, In r (merged file batch) ->
    exists before after,
      written file batch = before ++ r :: after /\
      ~ In (row_id r) (ids after).
Proof.
  intros Hb. split; [now apply merged_NoDup|].
  destruct file as [existing|]; cbn [merged written]; intros r Hr.
  - now apply drop_duplicates_last_keeps_last.
  - apply NoDup_keeps_last; [now apply Hb|exact Hr].
Qed.

End Upsert.






(** C8, as the code has it.  Each of the three stage operations returns the
    empty list when the model call raises, when the response holds no
    bracket-delimited piece, when that piece is not JSON, and also when an
    element of the parsed array is not a JSON object (building its record
    raises, which the handler turns into the empty list).  When the array
    parses and all its elements are objects (for [generate_ltl_batch]: with
    an [operators_used] that can be joined), the operation returns one
    record per element. *)
Theorem stage_results
  (json_loads : string -> option Json.value) (uuid8 now_iso : nat -> string)
  (rfc : string) :
  let properties := extract_properties_batch json_loads uuid8 now_iso rfc in
  let propositions := extract_propositions_batch json_loads uuid8 now_iso in
  let formulas := generate_ltl_batch json_loads uuid8 now_iso in
  (properties Raised = [] /\ propositions Raised = [] /\ formulas Raised = []) /\
  (forall text, search_array text = None ->
     properties (Text text) = [] /\ propositions (Text text) = [] /\
     formulas (Text text) = []) /\
  (forall text m, search_array text = Some m -> json_loads m = None ->
     properties (Text text) = [] /\ propositions (Text text) = [] /\
     formulas (Text text) = []) /\
  (forall text m items,
     search_array text = Some m -> json_loads m = Some (Json.Arr items) ->
     forallb Json.is_object items = false ->
     properties (Text text) = [] /\ propositions (Text text) = [] /\
     formulas (Text text) = []) /\
  (forall text m items,
     search_array text = Some m -> json_loads m = Some (Json.Arr items) ->
     forallb Json.is_object items = true ->
     List.length (properties (Text text)) = List.length items /\
     List.length (propositions (Text text)) = List.length items /\
     (forallb joinable_operators items = true ->
      List.length (formulas (Text text)) = List.length items)).
Proof.
  cbv zeta.
  unfold extract_properties_batch, extract_propositions_batch, generate_ltl_batch.
  split; [now repeat split|]. split; [|split; [|split]].
  - intros text Hs. now rewrite !run_stage_no_array.
  - intros text m Hs Hl. now rewrite !(run_stage_not_json _ _ _ text m).
  - intros text m items Hs Hl Hobj.
    apply forallb_false_witness in Hobj as (bad & Hin & Hbad).
    split; [|split]; apply (run_stage_bad_item _ _ _ text m items Hs Hl);
      exists bad; (split; [exact Hin|intros k]).
    + now apply property_of_other.
    + now apply proposition_of_other.
    + now apply formula_of_other.
  - intros text m items Hs Hl Hobj. rewrite forallb_forall in Hobj.
    split; [|split].
    + apply (run_stage_records _ _ _ text m items Hs Hl).
      intros k item Hin. now apply property_of_object, Hobj.
    + apply (run_stage_records _ _ _ text m items Hs Hl).
      intros k item Hin. now apply proposition_of_object, Hobj.
    + intros Hops. rewrite forallb_forall in Hops.
      apply (run_stage_records _ _ _ text m items Hs Hl).
      intros k item Hin. apply formula_of_object; [now apply Hobj|now apply Hops].
Qed.

Lemma stage_results_witness :
  extract_properties_batch sample_loads sample_uuid sample_now "8446"
    (Text "no array here") = [] /\
  extract_propositions_batch sample_loads sample_uuid sample_now
    (Text "Sure: [not json]") = [] /\
  generate_ltl_batch sample_loads sample_uuid sample_now
    (Text "Result: [1, 2] done") = [] /\
  List.length (extract_properties_batch sample_loads sample_uuid sample_now "8446"
                 (Text "Here: [{}, {}].")) = 2.
Proof.
  destruct (stage_results sample_loads sample_uuid sample_now "8446")
    as (_ & Hnone & Hjson & Hbad & Hgood).
  split; [|split; [|split]].
  - apply (Hnone "no array here"). reflexivity.
  - apply (Hjson "Sure: [not json]" "[not json]"); reflexivity.
  - apply (Hbad "Result: [1, 2] done" "[1, 2]" [Json.Num "1"; Json.Num "2"]);
      reflexivity.
  - apply (Hgood "Here: [{}, {}]." "[{}, {}]" [Json.Obj []; Json.Obj []]);
      reflexivity.
Defined.

(** C8, as stated, fails: the response "[1, 2]" holds an array that parses,
    with two elements, and each stage operation returns no record. *)
Lemma array_of_numbers_gives_nothing :
  search_array "[1, 2]" = Some "[1, 2]" /\
  sample_loads "[1, 2]" = Some (Json.Arr [Json.Num "1"; Json.Num "2"]) /\
  extract_properties_batch sample_loads sample_uuid sample_now "8446"
    (Text "[1, 2]") = [] /\
  extract_propositions_batch sample_loads sample_uuid sample_now
    (Text "[1, 2]") = [] /\
  generate_ltl_batch sample_loads sample_uuid sample_now (Text "[1, 2]") = [] /\
  ~ (forall json_loads uuid8 now_iso rfc text m items,
       search_array text = Some m -> json_loads m = Some (Json.Arr items) ->
       List.length (extract_properties_batch json_loads uuid8 now_iso rfc (Text text))
       = List.length items).
Proof.
  repeat (split; [reflexivity|]).
  intros Hclaim.
  specialize (Hclaim sample_loads sample_uuid sample_now "8446" "[1, 2]" "[1, 2]"
                     [Json.Num "1"; Json.Num "2"] eq_refl eq_refl).
  discriminate Hclaim.
Qed.



(** * Further properties of the code *)

(** ** Saving batches *)

Section Batches.
Context {R : Type} `{Row R}.

Lemma drop_duplicates_last_idem (rows : list R) :
  drop_duplicates_last (drop_duplicates_last rows) = drop_duplicates_last rows.
Proof. apply drop_duplicates_last_id, drop_duplicates_last_NoDup. Qed.

Lemma isin_ids (r : R) rows : isin (row_id r) (ids rows) = existsb (same_id r) rows.
Proof.
  unfold isin, ids. induction rows as [|x rows IH]; [reflexivity|].
  cbn. now rewrite IH.
Qed.

Lemma drop_duplicates_last_In (r : R) rows :
  In r (drop_duplicates_last rows) -> In r rows.
Proof.
  induction rows as [|x rows IH]; [intros []|]. cbn [drop_duplicates_last].
  destruct (existsb (same_id x) rows).
  - intros Hin. right. now apply IH.
  - intros [->|Hin]; [now left|right; now apply IH].
Qed.

Lemma filter_none {A} (p : A -> bool) l :
  (forall x, In x l -> p x = false) -> filter p l = [].
Proof.
  induction l as [|x l IH]; [reflexivity|]. intros Hp. cbn.
  rewrite (Hp x (or_introl eq_refl)). apply IH. intros y Hy. apply Hp. now right.
Qed.

Lemma filter_all {A} (p : A -> bool) l :
  (forall x, In x l -> p x = true) -> filter p l = l.
Proof.
  induction l as [|x l IH]; [reflexivity|]. intros Hp. cbn.
  rewrite (Hp x (or_introl eq_refl)). f_equal. apply IH. intros y Hy.
  apply Hp. now right.
Qed.

Lemma filter_idem {A} (p : A -> bool) l : filter p (filter p l) = filter p l.
Proof.
  apply filter_all. intros x Hx. now apply filter_In in Hx.
Qed.

Lemma in_batch_same_id (r : R) batch : In r batch -> existsb (same_id r) batch = true.
Proof.
  intros Hin. apply existsb_same_id. unfold ids. now apply in_map.
Qed.

Lemma untouched_batch_rows batch :
  filter (untouched batch) (drop_duplicates_last batch) = [].
Proof.
  apply filter_none. intros r Hr. unfold untouched.
  now rewrite (in_batch_same_id r batch (drop_duplicates_last_In r batch Hr)).
Qed.

Lemma merged_ids file batch i :
  In i (ids (merged file batch)) <->
  In i (ids (match file with Some rows => rows | None => [] end)) \/ In i (ids batch).
Proof.
  destruct file as [existing|]; cbn [merged].
  - rewrite drop_duplicates_last_ids. unfold ids. rewrite map_app. apply in_app_iff.
  - cbn. tauto.
Qed.

Lemma merged_idem file batch :
  (file = None -> NoDup (ids batch)) ->
  merged (Some (merged file batch)) batch = merged file batch.
Proof.
  intros Hb. destruct file as [existing|]; cbn [merged].
  - rewrite (drop_duplicates_last_app (drop_duplicates_last (existing ++ batch))).
    rewrite drop_duplicates_last_idem.
    rewrite (drop_duplicates_last_app existing batch) at 1.
    rewrite filter_app, filter_idem, untouched_batch_rows, app_nil_r.
    symmetry. apply drop_duplicates_last_app.
  - rewrite drop_duplicates_last_app, untouched_batch_rows. cbn [app].
    now apply drop_duplicates_last_id, Hb.
Qed.

Lemma merged_twice file b1 b2 :
  (file = None -> NoDup (ids (b1 ++ b2))) ->
  merged (Some (merged file b1)) b2 = merged file (b1 ++ b2).
Proof.
  intros Hb. destruct file as [existing|]; cbn [merged].
  - rewrite (drop_duplicates_last_app (drop_duplicates_last (existing ++ b1))).
    rewrite drop_duplicates_last_idem, app_assoc.
    symmetry. apply drop_duplicates_last_app.
  - now apply drop_duplicates_last_id, Hb.
Qed.

Lemma merged_round_trip file batch :
  NoDup (ids batch) ->
  filter (fun r => isin (row_id r) (ids batch)) (merged file batch) = batch.
Proof.
  intros Hnd.
  assert (Hb : filter (fun r : R => isin (row_id r) (ids batch)) batch = batch).
  { apply filter_all. intros r Hr. rewrite isin_ids. now apply in_batch_same_id. }
  destruct file as [existing|]; cbn [merged]; [|exact Hb].
  rewrite drop_duplicates_last_app, (drop_duplicates_last_id batch Hnd), filter_app, Hb.
  rewrite filter_none; [reflexivity|]. intros r Hr. apply filter_In in Hr as [_ Hr].
  rewrite isin_ids. unfold untouched in Hr. now destruct (existsb (same_id r) batch).
Qed.

End Batches.










(** ** Approval *)

Section ApproveFacts.
Context {R : Type} `{Row R}.
Variable set_approved : R -> R.
Hypothesis set_approved_id : forall r, row_id (set_approved r) = row_id r.
Hypothesis set_approved_idem :
  forall r, set_approved (set_approved r) = set_approved r.

Lemma approve_one_pass ids approver file :
  approve set_approved ids approver file =
  mk_approval_table true
    (map (approve_row set_approved ids approver)
         (fill_column (load_table file))).
Proof.
  unfold approve. f_equal. rewrite map_map. apply map_ext. intros r.
  unfold approve_row. destruct (isin (row_id (record r)) ids) eqn:E; cbn.
  - now rewrite set_approved_id, E.
  - now rewrite E.
Qed.

Lemma fill_column_ids df :
  map (fun r => row_id (record r)) (fill_column df)
  = map (fun r => row_id (record r)) (table_rows df).
Proof.
  unfold fill_column. destruct (by_column df); [reflexivity|].
  rewrite map_map. reflexivity.
Qed.

Lemma approve_same_ids ids approver file :
  map (fun r => row_id (record r))
      (table_rows (approve set_approved ids approver file))
  = map (fun r => row_id (record r)) (table_rows (load_table file)).
Proof.
  rewrite approve_one_pass. cbn [table_rows]. rewrite <- fill_column_ids, map_map.
  apply map_ext. intros r. unfold approve_row.
  destruct (isin (row_id (record r)) ids); [cbn; apply set_approved_id|reflexivity].
Qed.

Lemma approve_unlisted ids approver file :
  filter (fun r => negb (isin (row_id (record r)) ids))
         (table_rows (approve set_approved ids approver file))
  = filter (fun r => negb (isin (row_id (record r)) ids))
           (fill_column (load_table file)).
Proof.
  rewrite approve_one_pass. cbn [table_rows].
  induction (fill_column (load_table file)) as [|r rows IH]; [reflexivity|].
  cbn [map filter]. rewrite IH. unfold approve_row at 1 2.
  destruct (isin (row_id (record r)) ids) eqn:E.
  - cbn [record]. now rewrite set_approved_id, E.
  - now rewrite E.
Qed.

Lemma approve_listed ids approver file r :
  In r (table_rows (approve set_approved ids approver file)) ->
  isin (row_id (record r)) ids = true ->
  approved_by r = Some approver /\
  exists r0, In r0 (fill_column (load_table file)) /\
             record r = set_approved (record r0).
Proof.
  rewrite approve_one_pass. cbn [table_rows]. rewrite in_map_iff.
  intros (r0 & <- & Hin). unfold approve_row.
  destruct (isin (row_id (record r0)) ids) eqn:E; cbn [record approved_by].
  - intros _. split; [reflexivity|]. now exists r0.
  - congruence.
Qed.

Lemma approve_row_twice l1 l2 approver r :
  approve_row set_approved l2 approver (approve_row set_approved l1 approver r)
  = approve_row set_approved (l1 ++ l2) approver r.
Proof.
  unfold approve_row, isin. rewrite existsb_app.
  destruct (existsb (String.eqb (row_id (record r))) l1) eqn:E1; cbn [orb record].
  - rewrite set_approved_id.
    destruct (existsb (String.eqb (row_id (record r))) l2); [|reflexivity].
    cbn [record]. now rewrite set_approved_idem.
  - reflexivity.
Qed.

Lemma approve_twice l1 l2 approver file :
  approve set_approved l2 approver (Some (approve set_approved l1 approver file))
  = approve set_approved (l1 ++ l2) approver file.
Proof.
  rewrite (approve_one_pass l2), (approve_one_pass l1), (approve_one_pass (l1 ++ l2)).
  cbn [load_table]. unfold fill_column at 1. cbn [by_column table_rows].
  f_equal. rewrite map_map. apply map_ext. intros r. apply approve_row_twice.
Qed.

Lemma approve_row_idem ids approver r :
  approve_row set_approved ids approver (approve_row set_approved ids approver r)
  = approve_row set_approved ids approver r.
Proof.
  unfold approve_row.
  destruct (isin (row_id (record r)) ids) eqn:E; cbn [record]; [|now rewrite E].
  now rewrite set_approved_id, E, set_approved_idem.
Qed.

Lemma approve_idem ids approver file :
  approve set_approved ids approver (Some (approve set_approved ids approver file))
  = approve set_approved ids approver file.
Proof.
  rewrite (approve_one_pass ids approver (Some _)), (approve_one_pass ids approver file).
  cbn [load_table]. unfold fill_column at 1. cbn [by_column table_rows].
  f_equal. rewrite map_map. apply map_ext. intros r. apply approve_row_idem.
Qed.

End ApproveFacts.

Lemma proposition_approved_id (p : proposition) :
  row_id (proposition_approved p) = row_id p.
Proof. reflexivity. Qed.

Lemma formula_approved_id (f : formula) : row_id (formula_approved f) = row_id f.
Proof. reflexivity. Qed.

Lemma proposition_approved_idem p :
  proposition_approved (proposition_approved p) = proposition_approved p.
Proof. reflexivity. Qed.

Lemma formula_approved_idem f :
  formula_approved (formula_approved f) = formula_approved f.
Proof. reflexivity. Qed.




(** ** The response of the model *)

Section Brackets.

Lemma lacks_app c a b : lacks c (a ++ b) = lacks c a && lacks c b.
Proof.
  unfold lacks. induction a as [|x a IH]; [reflexivity|].
  cbn. now rewrite IH, andb_assoc.
Qed.

Lemma from_first_open_spec text :
  match from_first_open text with
  | Some s => exists pre rest,
      text = (pre ++ s)%string /\ s = String "[" rest /\ lacks "[" pre = true
  | None => lacks "[" text = true
  end.
Proof.
  induction text as [|c text IH]; [reflexivity|]. cbn [from_first_open].
  destruct (Ascii.eqb c "[") eqn:E.
  - apply Ascii.eqb_eq in E. subst c. now exists EmptyString, text.
  - destruct (from_first_open text) as [s|].
    + destruct IH as (pre & rest & -> & -> & Hpre).
      exists (String c pre), rest. repeat split. unfold lacks in *. cbn.
      now rewrite E, Hpre.
    + unfold lacks in *. cbn. now rewrite E, IH.
Qed.

Lemma upto_last_close_spec s :
  match upto_last_close s with
  | Some p => exists inner post,
      p = (inner ++ "]")%string /\ s = (p ++ post)%string /\ lacks "]" post = true
  | None => lacks "]" s = true
  end.
Proof.
  induction s as [|c s IH]; [reflexivity|]. cbn [upto_last_close].
  destruct (upto_last_close s) as [p|].
  - destruct IH as (inner & post & -> & -> & Hpost).
    now exists (String c inner), post.
  - destruct (Ascii.eqb c "]") eqn:E.
    + apply Ascii.eqb_eq in E. subst c. now exists EmptyString, s.
    + unfold lacks in *. cbn. now rewrite E, IH.
Qed.

(** The text behind the first [c] ends with whatever follows any [c]. *)
Lemma first_char_aligned c a x b y :
  (a ++ String c x)%string = (b ++ String c y)%string -> lacks c a = true ->
  exists z, x = (z ++ y)%string.
Proof.
  revert b. induction a as [|d a IH]; intros b Heq Ha.
  - destruct b as [|e b]; cbn in Heq.
    + injection Heq as ->. now exists EmptyString.
    + injection Heq as _ ->. exists (b ++ String c EmptyString)%string.
      now rewrite append_assoc.
  - unfold lacks in Ha. cbn in Ha. apply andb_prop in Ha as [Hd Ha].
    destruct b as [|e b]; cbn in Heq.
    + injection Heq as -> _. now rewrite Ascii.eqb_refl in Hd.
    + injection Heq as _ Heq. now apply (IH b).
Qed.

End Brackets.

(** X8.  The piece of the response that is handed to the JSON parser runs
    from the first opening bracket of the text to its last closing bracket;
    there is none exactly when no closing bracket stands behind an opening
    one. *)
Theorem search_array_first_to_last (text : string) :
  match search_array text with
  | Some m =>
      exists pre inner post,
        text = (pre ++ m ++ post)%string /\ m = ("[" ++ inner ++ "]")%string /\
        lacks "[" pre = true /\ lacks "]" post = true
  | None =>
      forall pre mid post, text <> (pre ++ "[" ++ mid ++ "]" ++ post)%string
  end.
Proof.
  unfold search_array. pose proof (from_first_open_spec text) as Hopen.
  destruct (from_first_open text) as [s|].
  - destruct Hopen as (pre & rest & -> & -> & Hpre).
    pose proof (upto_last_close_spec rest) as Hclose.
    destruct (upto_last_close rest) as [p|].
    + destruct Hclose as (inner & post & -> & -> & Hpost).
      exists pre, inner, post.
      split; [cbn; now rewrite !append_assoc|].
      split; [reflexivity|]. now split.
    + intros pre' mid post Heq.
      destruct (first_char_aligned _ _ _ _ _ Heq Hpre) as [z ->].
      rewrite !lacks_app in Hclose. cbn in Hclose.
      now rewrite !andb_false_r in Hclose.
  - intros pre mid post ->. rewrite lacks_app in Hopen. cbn in Hopen.
    now rewrite andb_false_r in Hopen.
Qed.

Section Records.
Variable R : Type.
Variable mk : nat -> Json.value -> option R.

Lemma build_Forall (P : R -> Prop) :
  (forall k item r, mk k item = Some r -> P r) ->
  forall items k rs, build mk k items = Some rs -> Forall P rs.
Proof.
  intros HP. induction items as [|item items IH]; intros k rs; cbn [build].
  - intros [= <-]. constructor.
  - destruct (mk k item) as [r|] eqn:E; [|discriminate].
    destruct (build mk (S k) items) as [rs'|] eqn:E'; [|discriminate].
    intros [= <-]. constructor; [now apply (HP k item)|now apply (IH (S k))].
Qed.

Lemma build_ids (id : R -> string) (fresh : nat -> string) :
  (forall k item r, mk k item = Some r -> id r = fresh k) ->
  forall items k rs, build mk k items = Some rs ->
    map id rs = map fresh (seq k (List.length rs)).
Proof.
  intros Hid. induction items as [|item items IH]; intros k rs; cbn [build].
  - now intros [= <-].
  - destruct (mk k item) as [r|] eqn:E; [|discriminate].
    destruct (build mk (S k) items) as [rs'|] eqn:E'; [|discriminate].
    intros [= <-]. cbn. f_equal; [now apply (Hid k item)|now apply IH].
Qed.

Lemma run_stage_Forall json_loads (P : R -> Prop) :
  (forall k item r, mk k item = Some r -> P r) ->
  forall r, Forall P (run_stage json_loads mk r).
Proof.
  intros HP r. unfold run_stage.
  destruct (try_stage json_loads mk r) as [rs|] eqn:E; [|constructor].
  unfold try_stage in E. destruct r as [|text]; [discriminate|].
  destruct (search_array text); [|injection E as <-; constructor].
  destruct (json_loads s); [|discriminate].
  destruct (Json.iterate v); [|discriminate].
  now apply (build_Forall P HP l 0).
Qed.

Lemma run_stage_ids json_loads (id : R -> string) (fresh : nat -> string) :
  (forall k item r, mk k item = Some r -> id r = fresh k) ->
  forall r, map id (run_stage json_loads mk r)
            = map fresh (seq 0 (List.length (run_stage json_loads mk r))).
Proof.
  intros Hid r. unfold run_stage.
  destruct (try_stage json_loads mk r) as [rs|] eqn:E; [|reflexivity].
  unfold try_stage in E. destruct r as [|text]; [discriminate|].
  destruct (search_array text); [|injection E as <-; reflexivity].
  destruct (json_loads s); [|discriminate].
  destruct (Json.iterate v); [|discriminate].
  now apply (build_ids id fresh Hid l 0).
Qed.

End Records.

(** X9.  Whatever the model answers, the records of a stage carry what the
    application sets: every property has the document number given to the
    call, every proposition and every formula starts unapproved, and the
    ids are the fresh ids drawn for the records, in order; nothing in the
    response can set them. *)
Theorem stage_records_are_fresh
  (json_loads : string -> option Json.value) (uuid8 now_iso : nat -> string)
  (rfc : string) (r : reply) :
  let properties := extract_properties_batch json_loads uuid8 now_iso rfc r in
  let propositions := extract_propositions_batch json_loads uuid8 now_iso r in
  let formulas := generate_ltl_batch json_loads uuid8 now_iso r in
  (Forall (fun p => prop_rfc p = rfc) properties /\
   map prop_id properties = map uuid8 (seq 0 (List.length properties))) /\
  (Forall (fun a => ap_approved a = false) propositions /\
   map ap_id propositions = map uuid8 (seq 0 (List.length propositions))) /\
  (Forall (fun f => ltl_approved f = false) formulas /\
   map ltl_id formulas = map uuid8 (seq 0 (List.length formulas))).
Proof.
  cbv zeta.
  unfold extract_properties_batch, extract_propositions_batch, generate_ltl_batch.
  assert (Hp : forall k item p, property_of uuid8 now_iso rfc k item = Some p ->
                 prop_rfc p = rfc /\ prop_id p = uuid8 k).
  { intros k item p. unfold property_of.
    destruct item; cbn [Json.get]; try discriminate. now intros [= <-]. }
  assert (Ha : forall k item a, proposition_of uuid8 now_iso k item = Some a ->
                 ap_approved a = false /\ ap_id a = uuid8 k).
  { intros k item a. unfold proposition_of.
    destruct item; cbn [Json.get]; try discriminate. now intros [= <-]. }
  assert (Hf : forall k item f, formula_of uuid8 now_iso k item = Some f ->
                 ltl_approved f = false /\ ltl_id f = uuid8 k).
  { intros k item f. unfold formula_of.
    destruct item; cbn [Json.get]; try discriminate.
    destruct (Json.comma_join _); [|discriminate]. now intros [= <-]. }
  split; [|split]; split.
  - apply run_stage_Forall. intros k item p H. now apply (Hp k item).
  - apply run_stage_ids. intros k item p H. now apply (Hp k item).
  - apply run_stage_Forall. intros k item a H. now apply (Ha k item).
  - apply run_stage_ids. intros k item a H. now apply (Ha k item).
  - apply run_stage_Forall. intros k item f H. now apply (Hf k item).
  - apply run_stage_ids. intros k item f H. now apply (Hf k item).
Qed.

(** ** The prompt of the first stage *)

Section Prompt.

Lemma length_append (a b : string) :
  String.length (a ++ b) = String.length a + String.length b.
Proof. induction a as [|c a IH]; cbn; [reflexivity|now rewrite IH]. Qed.

Lemma length_slice_to n s : String.length (slice_to n s) = Nat.min n (String.length s).
Proof.
  unfold slice_to. revert s. induction n as [|n IH]; intros s.
  - destruct s; reflexivity.
  - destruct s as [|c s]; [reflexivity|]. cbn. now rewrite IH.
Qed.

Lemma sections_text_length_from sections acc :
  String.length
    (fold_left
       (fun text sec =>
          ((text ++ section_heading sec) ++ slice_to 2000 (content sec))%string)
       sections acc)
  = String.length acc
    + list_sum (map (fun sec => 21 + String.length (section sec)
                                + String.length (title sec)
                                + Nat.min 2000 (String.length (content sec)))
                    sections).
Proof.
  revert acc. induction sections as [|sec sections IH]; intros acc; cbn [fold_left].
  - cbn. lia.
  - rewrite IH, !length_append, length_slice_to. unfold section_heading.
    cbn [map list_sum fold_right]. rewrite !length_append. cbn [String.length].
    unfold list_sum. lia.
Qed.

Lemma sorted_split (l1 l2 : list entry) :
  StronglySorted ranked (l1 ++ l2) ->
  forall a b, In a l1 -> In b l2 -> keywords b <= keywords a.
Proof.
  induction l1 as [|x l1 IH]; intros Hs a b Ha Hb; [destruct Ha|].
  cbn in Hs. inversion Hs as [|? ? Hs' Hall]; subst. destruct Ha as [<-|Ha].
  - rewrite Forall_forall in Hall. apply Hall. apply in_or_app. now right.
  - now apply IH.
Qed.

End Prompt.

(** X10.  The text of the sections in the prompt of the first stage is made
    of one block per section, of 21 characters of heading around the number
    and the title of the section, followed by at most the first 2000
    characters of its content: its length is the sum of these, so no
    section adds more than 2000 characters of content. *)
Theorem sections_text_length (sections : list entry) :
  String.length (sections_text sections)
  = list_sum (map (fun sec => 21 + String.length (section sec)
                              + String.length (title sec)
                              + Nat.min 2000 (String.length (content sec)))
                  sections) /\
  String.length (sections_text sections)
  <= list_sum (map (fun sec => 2021 + String.length (section sec)
                               + String.length (title sec)) sections).
Proof.
  assert (E := sections_text_length_from sections EmptyString).
  unfold sections_text. cbn [String.length Nat.add] in E. split; [exact E|].
  rewrite E. clear E. induction sections as [|sec sections IH]; [cbn; lia|].
  cbn [map]. unfold list_sum in *. cbn [fold_right]. lia.
Qed.

(** X11.  The first stage is given at most ten sections, the first ten of
    the ranked list: each of them has at least three keyword hits and at
    least as many as any section that is left out. *)
Theorem top_sections_are_the_best (text : string) :
  let sent := Workflow.top_sections (parse text) in
  List.length sent <= 10 /\
  Forall (fun e => 3 <= keywords e) sent /\
  (forall e e', In e sent ->
     In e' (skipn 10 (property_sections (parse text))) ->
     keywords e' <= keywords e) /\
  (List.length (property_sections (parse text)) <= 10 ->
     sent = property_sections (parse text)).
Proof.
  cbv zeta. unfold Workflow.top_sections. cbn [parse property_sections].
  destruct (extract_sections_ranked_parts text) as (Hmin & Hsorted).
  split; [apply firstn_le_length|]. split; [|split].
  - rewrite <- (firstn_skipn 10 (_extract_property_sections text)) in Hmin.
    now apply Forall_app in Hmin.
  - apply sorted_split. now rewrite firstn_skipn.
  - intros Hlen. now apply firstn_all2.
Qed.

(** ** The workflow *)

Section WorkflowFacts.
Variable API_KEY : string.
Variable json_loads : string -> option Json.value.

Lemma truthy_list_not_nil {A} (l : list A) : truthy_list l = true -> l <> [].
Proof. destruct l; [discriminate|discriminate]. Qed.

Lemma all_saved_after_save {R : Type} `{Row R} (file : option (list R)) batch :
  all_saved batch (merged file batch).
Proof.
  intros r Hr. apply merged_ids. right. unfold ids. now apply in_map.
Qed.

(** One click: the stage stays, with the store as it was, or moves to the
    next page. *)
Lemma handle_step c a :
  let a' := Workflow.handle API_KEY json_loads c a in
  (Workflow.stage (Workflow.state a') = Workflow.stage (Workflow.state a) /\
   Workflow.disk a' = Workflow.disk a) \/
  Workflow.stage (Workflow.state a')
  = Workflow.next_stage (Workflow.stage (Workflow.state a)).
Proof.
  cbv zeta. unfold Workflow.handle.
  destruct (Workflow.stage (Workflow.state a)) eqn:Es, c; try (left; now split).
  - unfold Workflow.on_parse_and_extract.
    destruct (negb (truthy_str API_KEY)); [left; cbn; now split|].
    destruct (truthy_list _); [right; reflexivity|left; cbn; now split].
  - unfold Workflow.on_extract_propositions.
    destruct (Workflow.properties (Workflow.state a)); [|left; now split].
    destruct (negb (truthy_str API_KEY)); [left; now split|].
    destruct (truthy_list _); [right; reflexivity|left; cbn; now split].
  - unfold Workflow.on_generate_ltl.
    destruct (Workflow.properties (Workflow.state a)); [|left; now split].
    destruct (_ && _); [left; now split|].
    destruct (negb (truthy_str API_KEY)); [left; now split|].
    destruct (truthy_list _); [right; reflexivity|left; cbn; now split].
  - right. reflexivity.
  - right. reflexivity.
Qed.

Lemma handle_invariant c a :
  workflow_invariant API_KEY a ->
  workflow_invariant API_KEY (Workflow.handle API_KEY json_loads c a).
Proof.
  intros Hinv. pose proof Hinv as (I1 & I2 & I3).
  unfold Workflow.handle.
  destruct (Workflow.stage (Workflow.state a)) eqn:Es, c; try exact Hinv.
  - (* upload: Parse & Extract *)
    unfold Workflow.on_parse_and_extract.
    destruct (truthy_str API_KEY) eqn:Ek; cbn [negb].
    + destruct (truthy_list _) eqn:Ep.
      * split; [|split]; cbn; try discriminate. intros _.
        split; [exact Ek|]. eexists. split; [reflexivity|].
        split; [now apply truthy_list_not_nil|apply all_saved_after_save].
      * unfold workflow_invariant. cbn. rewrite Es. cbn.
        repeat split; discriminate.
    + unfold workflow_invariant. cbn. rewrite Es. cbn.
      repeat split; discriminate.
  - (* review: Extract Propositions *)
    unfold Workflow.on_extract_propositions.
    destruct (Workflow.properties (Workflow.state a)) as [props|] eqn:Eprops;
      [|exact Hinv].
    destruct (truthy_str API_KEY) eqn:Ek; cbn [negb]; [|exact Hinv].
    specialize (I1 eq_refl).
    destruct (truthy_list _) eqn:Ea.
    + split; [|split]; cbn; try discriminate.
      * intros _. rewrite ?Eprops. (split; [exact Ek|exact (proj2 I1)]).
      * intros _. eexists. split; [reflexivity|].
        split; [now apply truthy_list_not_nil|apply all_saved_after_save].
    + unfold workflow_invariant. cbn. rewrite Es. cbn.
      split; [|split]; try discriminate. intros _. rewrite ?Eprops. (split; [exact Ek|exact (proj2 I1)]).
  - (* propositions: Generate LTL *)
    unfold Workflow.on_generate_ltl.
    destruct (Workflow.properties (Workflow.state a)) as [props|] eqn:Eprops;
      [|exact Hinv].
    destruct (_ && _); [exact Hinv|].
    destruct (truthy_str API_KEY) eqn:Ek; cbn [negb]; [|exact Hinv].
    specialize (I1 eq_refl). specialize (I2 eq_refl).
    destruct (truthy_list _) eqn:Ef.
    + split; [|split]; cbn; intros _; rewrite ?Eprops.
      * (split; [exact Ek|exact (proj2 I1)]).
      * exact I2.
      * eexists. split; [reflexivity|].
        split; [now apply truthy_list_not_nil|apply all_saved_after_save].
    + unfold workflow_invariant. cbn. rewrite Es. cbn.
      split; [|split]; try discriminate; intros _; rewrite ?Eprops;
        [(split; [exact Ek|exact (proj2 I1)])|exact I2].
  - (* formulas: Finish *)
    unfold Workflow.on_finish, workflow_invariant. cbn.
    split; [|split]; intros _; [now apply I1|now apply I2|now apply I3].
  - (* view: Process Another RFC *)
    unfold Workflow.on_process_another, workflow_invariant. cbn.
    repeat split; discriminate.
Qed.

Lemma run_invariant clicks : forall a,
  workflow_invariant API_KEY a ->
  workflow_invariant API_KEY (Workflow.run API_KEY json_loads clicks a).
Proof.
  induction clicks as [|c clicks IH]; intros a Ha; [exact Ha|].
  cbn [Workflow.run fold_left]. apply IH. now apply handle_invariant.
Qed.

End WorkflowFacts.


(** X13.  From a new session, whatever the store holds and whatever stage
    buttons are clicked: on every page behind the upload page the
    credential is set and the session holds a non-empty list of properties,
    all of whose ids are in the properties table; from the approval of the
    propositions on the same holds of the propositions, and from the
    approval of the formulas on of the formulas. *)
Theorem pages_have_their_records
  (API_KEY : string) (json_loads : string -> option Json.value)
  (store : files) (clicks : list Workflow.click) :
  workflow_invariant API_KEY
    (Workflow.run API_KEY json_loads clicks
       (Workflow.mk_app Workflow.new_session store)).
Proof.
  apply run_invariant. unfold workflow_invariant. cbn.
  repeat split; discriminate.
Qed.

(** ** Title and document number, all texts *)

Section Metadata.

Lemma prefix_slice_to p n s :
  String.length p <= n -> prefix p (slice_to n s) = prefix p s.
Proof.
  unfold slice_to. revert p s. induction n as [|n IH]; intros p s Hp.
  - destruct p; [now destruct s|cbn in Hp; lia].
  - destruct s as [|c s]; [reflexivity|]. destruct p as [|d p]; [reflexivity|].
    cbn [substring]. rewrite !prefix_cons. f_equal. apply IH. cbn in Hp. lia.
Qed.

Lemma rstrip_with_head p q s c r :
  rstrip_with q s = String c r -> head_is p s = p c.
Proof.
  destruct s as [|d s]; [discriminate|]. cbn.
  destruct (rstrip_with q s); [destruct (q d)|]; now intros [= <- _].
Qed.

Lemma strip_head s : head_is isspace (strip s) = false.
Proof.
  unfold strip. destruct (rstrip_with isspace (drop_while isspace s)) eqn:E;
    [reflexivity|].
  cbn. rewrite <- (rstrip_with_head isspace _ _ _ _ E). apply head_drop_while.
Qed.

Lemma slice_to_head p n s : head_is p (slice_to (S n) s) = head_is p s.
Proof. destruct s; reflexivity. Qed.

Lemma extract_title_shape lines :
  _extract_title lines = "Unknown Title" \/
  exists line, In line lines /\ title_candidate line = true /\
               _extract_title lines = slice_to 100 (strip line).
Proof.
  induction lines as [|l lines IH]; [now left|]. cbn [_extract_title].
  destruct (_ && _) eqn:E.
  - right. exists l. split; [now left|]. now split.
  - destruct IH as [IH|(line & Hin & Hc & IH)]; [now left|].
    right. exists line. split; [now right|]. now split.
Qed.

Lemma extract_title_none lines :
  (forall line, In line lines -> title_candidate line = false) ->
  _extract_title lines = "Unknown Title".
Proof.
  induction lines as [|l lines IH]; intros Hn; [reflexivity|]. cbn [_extract_title].
  assert (E := Hn l (or_introl eq_refl)). unfold title_candidate in E.
  unfold startswith. rewrite E. apply IH. intros line Hl. apply Hn. now right.
Qed.

Lemma search_rfc_digits s g :
  search_rfc s = Some g -> g <> EmptyString /\ all_chars isdigit g = true.
Proof.
  induction s as [|c s IH]; rewrite search_rfc_unfold.
  - cbn. discriminate.
  - destruct (match_rfc_here (String c s)) as [d|] eqn:E; [|exact IH].
    intros [= <-]. apply match_rfc_here_sound in E.
    destruct E as (_ & _ & _ & _ & _ & _ & Hd & Hne & _). now split.
Qed.

End Metadata.



(** X15.  For every text the document number returned by [parse] is
    "Unknown" or a non-empty string of decimal digits. *)
Theorem parse_rfc_number_shape (text : string) :
  rfc_number (parse text) = "Unknown" \/
  (rfc_number (parse text) <> EmptyString /\
   all_chars isdigit (rfc_number (parse text)) = true).
Proof.
  unfold parse. cbn [rfc_number].
  destruct (search_rfc text) as [g|] eqn:E; [right|now left].
  now apply (search_rfc_digits text).
Qed.

(** ** The entries of the section list *)

Section Entries.

Lemma rstrip_with_nonempty p c s : p c = false -> rstrip_with p (String c s) <> EmptyString.
Proof. intros Hc. cbn. destruct (rstrip_with p s); [rewrite Hc|]; discriminate. Qed.

Lemma rstrip_with_all p b : all_chars p b = true -> rstrip_with p b = EmptyString.
Proof.
  induction b as [|c b IH]; [reflexivity|]. cbn. intros Hb.
  apply andb_prop in Hb as [Hc Hb]. now rewrite (IH Hb), Hc.
Qed.

Lemma rstrip_with_app_drop p a b :
  all_chars p b = true -> rstrip_with p (a ++ b) = rstrip_with p a.
Proof.
  intros Hb. induction a as [|c a IH]; cbn [append rstrip_with].
  - now apply rstrip_with_all.
  - now rewrite IH.
Qed.

Lemma rstrip_with_app_keep p a b :
  rstrip_with p b = b -> b <> EmptyString -> rstrip_with p (a ++ b) = (a ++ b)%string.
Proof.
  intros Hb Hne. induction a as [|c a IH]; [exact Hb|].
  cbn [append rstrip_with]. rewrite IH.
  destruct (a ++ b)%string eqn:E; [|reflexivity].
  destruct a; [cbn in E; contradiction|discriminate].
Qed.

Lemma rstrip_dot_digits d : all_chars isdigit d = true -> rstrip_dot d = d.
Proof.
  unfold rstrip_dot. induction d as [|c d IH]; [reflexivity|].
  cbn [all_chars rstrip_with]. intros Hd.
  apply andb_prop in Hd as [Hc Hd]. rewrite (IH Hd).
  destruct d; [|reflexivity].
  destruct (Ascii.eqb "." c) eqn:E; [|reflexivity].
  apply Ascii.eqb_eq in E. subst c. discriminate Hc.
Qed.

Lemma dotted_nonempty n : dotted_number n -> n <> EmptyString.
Proof. intros Hn ->. now apply dotted_head in Hn. Qed.

Lemma rstrip_dot_dotted n : dotted_number n -> rstrip_dot n = n.
Proof.
  induction 1 as [d Hne Hd | d n Hne Hd Hn IH]; [now apply rstrip_dot_digits|].
  unfold rstrip_dot in *. rewrite <- append_assoc.
  apply rstrip_with_app_keep; [exact IH|now apply dotted_nonempty].
Qed.

(** The two groups of a header: a dotted number with or without a dot
    behind it, and a title that does not start with a blank unless nothing
    but blanks follows the number. *)
Lemma match_header_groups s g1 g2 :
  match_header s = Some (g1, g2) ->
  dotted_number (rstrip_dot g1) /\
  (head_is isspace g2 = false /\ g2 <> EmptyString \/
   exists a b, s = (a ++ b)%string /\ b <> EmptyString /\ all_chars isspace b = true).
Proof.
  unfold match_header. destruct s as [|c s']; [discriminate|].
  destruct (isdigit c) eqn:Ec; [|discriminate].
  destruct (dotted_tail_sound s') as (Eq & Htail & _).
  destruct (dotted_tail s') as [a r1]. cbn [fst snd] in *.
  specialize (Htail c Ec).
  assert (Hnum : forall dot, dot = EmptyString \/ dot = "." ->
            dotted_number (rstrip_dot (String c a ++ dot))).
  { intros dot [-> | ->].
    - rewrite append_nil_r. now rewrite rstrip_dot_dotted.
    - unfold rstrip_dot. rewrite rstrip_with_app_drop by reflexivity.
      fold (rstrip_dot (String c a)). now rewrite rstrip_dot_dotted. }
  set (pick := match r1 with
               | EmptyString => (EmptyString, r1)
               | String d r => if Ascii.eqb d "." then (String d EmptyString, r)
                               else (EmptyString, r1)
               end).
  assert (Hpick : r1 = (fst pick ++ snd pick)%string /\
                  (fst pick = EmptyString \/ fst pick = ".")).
  { subst pick. destruct r1 as [|d r]; [now split; [|left]|].
    destruct (Ascii.eqb d ".") eqn:Ed; [|now split; [|left]].
    apply Ascii.eqb_eq in Ed. subst d. now split; [|right]. }
  destruct pick as [dot r2]. cbn [fst snd] in Hpick. destruct Hpick as [Er1 Hdot].
  pose proof (take_drop_while isspace r2) as Er2.
  pose proof (all_chars_take_while isspace r2) as Hblank.
  pose proof (head_drop_while isspace r2) as Hrest.
  destruct (take_while isspace r2) as [|b bs]; [discriminate|].
  destruct (drop_while isspace r2) as [|t ts].
  - destruct bs as [|b2 bs]; [discriminate|]. intros Hg. cbv iota beta in Hg. injection Hg as E1 E2. subst g1 g2.
    split; [now apply Hnum|]. right.
    exists (String c a ++ dot)%string, (String b (String b2 bs)).
    split; [|split; [discriminate|exact Hblank]].
    rewrite Eq, Er1, Er2, append_nil_r. cbn [append]. now rewrite append_assoc.
  - intros Hg. destruct bs; cbv iota beta in Hg; injection Hg as E1 E2; subst g1 g2;
      (split; [now apply Hnum|]; left; split; [exact Hrest|discriminate]).
Qed.

Lemma rstrip_with_length p s : String.length (rstrip_with p s) <= String.length s.
Proof.
  induction s as [|c s IH]; [reflexivity|]. cbn.
  destruct (rstrip_with p s); [destruct (p c)|]; cbn in *; lia.
Qed.

Lemma rstrip_with_idem p s : rstrip_with p (rstrip_with p s) = rstrip_with p s.
Proof.
  induction s as [|c s IH]; [reflexivity|]. cbn [rstrip_with].
  destruct (rstrip_with p s) as [|d r] eqn:E.
  - destruct (p c) eqn:Ec; [reflexivity|]. cbn. now rewrite Ec.
  - cbn [rstrip_with] in *. rewrite IH. reflexivity.
Qed.

(** A stripped string does not end with blanks. *)
Lemma strip_no_trailing_blanks line a b :
  strip line = (a ++ b)%string -> all_chars isspace b = true -> b = EmptyString.
Proof.
  unfold strip. intros E Hb.
  pose proof (rstrip_with_idem isspace (drop_while isspace line)) as Hi.
  rewrite E, rstrip_with_app_drop in Hi by exact Hb.
  pose proof (rstrip_with_length isspace a) as Hl.
  rewrite Hi, length_append in Hl. destruct b; [reflexivity|cbn in Hl; lia].
Qed.

Lemma strip_keeps_nonblank_head s :
  head_is isspace s = false -> s <> EmptyString -> strip s <> EmptyString.
Proof.
  destruct s as [|c s]; [contradiction|]. cbn [head_is]. intros Hc _.
  unfold strip. cbn [drop_while]. rewrite Hc. now apply rstrip_with_nonempty.
Qed.

Lemma header_groups_of_line line g1 g2 :
  match_header (strip line) = Some (g1, g2) ->
  dotted_number (rstrip_dot g1) /\ strip g2 <> EmptyString.
Proof.
  intros Hm. destruct (match_header_groups _ _ _ Hm) as [Hnum Htitle].
  split; [exact Hnum|].
  destruct Htitle as [[Hh Hne]|(a & b & E & Hne & Hb)].
  - now apply strip_keeps_nonblank_head.
  - now apply (strip_no_trailing_blanks line a b) in Hb.
Qed.

(** The invariant of the scan with the header of the current section. *)
Lemma scan_Forall_header (Q : string -> string -> Prop) (P : entry -> Prop) :
  (forall line g1 g2, match_header (strip line) = Some (g1, g2) ->
     Q (rstrip_dot g1) (strip g2)) ->
  (forall num ttl lines, Q num ttl -> lines <> [] ->
     3 <= _count_keywords (join_lines lines) ->
     P (mk_entry num ttl (join_lines lines) (_count_keywords (join_lines lines)))) ->
  forall lines st,
    (forall num, current_section st = Some num -> Q num (current_title st)) ->
    Forall P (sections st) ->
    Forall P (save_section (fold_left scan_line lines st)).
Proof.
  intros HQ HP. induction lines as [|l lines IH]; intros st Hq Hst; cbn [fold_left].
  - apply save_section_Forall; [|exact Hst]. intros num Hn Hc Hk.
    apply HP; [now apply Hq|exact Hc|exact Hk].
  - apply IH; unfold scan_line;
      destruct (match_header (strip l)) as [[g1 g2]|] eqn:Em.
    + cbn. intros num [= <-]. now apply (HQ l).
    + destruct (section_truthy (current_section st)); [cbn|]; exact Hq.
    + cbn. apply save_section_Forall; [|exact Hst]. intros num Hn Hc Hk.
      apply HP; [now apply Hq|exact Hc|exact Hk].
    + destruct (section_truthy (current_section st)); [cbn|]; exact Hst.
Qed.

End Entries.

(** X16.  Every section returned by the extractor has as its number a dotted
    number (one or more dot-separated integers, no dot behind) and a title
    that is not empty. *)
Theorem sections_are_well_formed (text : string) :
  Forall (fun e => dotted_number (section e) /\ title e <> EmptyString)
         (_extract_property_sections text).
Proof.
  unfold _extract_property_sections, extract_lines.
  eapply Permutation_Forall; [apply sort_desc_perm|].
  unfold collect_lines.
  apply (scan_Forall_header
           (fun num ttl => dotted_number num /\ ttl <> EmptyString)).
  - intros line g1 g2 Hm. now apply (header_groups_of_line line).
  - intros num ttl lines Hq _ _. exact Hq.
  - discriminate.
  - constructor.
Qed.

(** ** Counting and composing sections *)

Section Composition.

Lemma save_section_length st :
  List.length (save_section st)
  <= List.length (sections st)
     + match current_section st with Some _ => 1 | None => 0 end.
Proof.
  unfold save_section. destruct (current_section st); [|lia].
  destruct (_ && _); [|lia]. destruct (3 <=? _); [|lia].
  rewrite length_app. cbn. lia.
Qed.

Lemma scan_length lines : forall st,
  List.length (save_section (fold_left scan_line lines st))
  <= List.length (sections st)
     + match current_section st with Some _ => 1 | None => 0 end
     + List.length (filter is_header lines).
Proof.
  induction lines as [|l lines IH]; intros st; cbn [fold_left filter].
  - pose proof (save_section_length st). cbn. lia.
  - specialize (IH (scan_line st l)). unfold scan_line, is_header in *.
    destruct (match_header (strip l)) as [[g1 g2]|].
    + cbn [sections current_section] in IH.
      pose proof (save_section_length st). cbn [List.length]. lia.
    + destruct (section_truthy (current_section st)); cbn in IH; lia.
Qed.

Lemma save_section_after found st :
  save_section (after_sections found st) = found ++ save_section st.
Proof.
  unfold save_section, after_sections.
  cbn [sections current_section current_title current_content].
  destruct (current_section st) as [num|]; [|reflexivity].
  destruct (truthy_str num && truthy_list (current_content st)); [|reflexivity].
  destruct (3 <=? _count_keywords (join_lines (current_content st)));
    [|reflexivity].
  now rewrite app_assoc.
Qed.

Lemma scan_line_after found st l :
  scan_line (after_sections found st) l = after_sections found (scan_line st l).
Proof.
  unfold scan_line. destruct (match_header (strip l)) as [[g1 g2]|].
  - rewrite save_section_after. reflexivity.
  - cbn [after_sections current_section].
    destruct (section_truthy (current_section st)); reflexivity.
Qed.

Lemma scan_after found lines : forall st,
  fold_left scan_line lines (after_sections found st)
  = after_sections found (fold_left scan_line lines st).
Proof.
  induction lines as [|l lines IH]; intros st; [reflexivity|].
  cbn [fold_left]. now rewrite scan_line_after, IH.
Qed.

Lemma collect_lines_at_header l1 h l2 :
  is_header h = true ->
  collect_lines (l1 ++ h :: l2) = collect_lines l1 ++ collect_lines (h :: l2).
Proof.
  intros Hh. unfold collect_lines. rewrite fold_left_app. cbn [fold_left].
  set (st1 := fold_left scan_line l1 scan_init).
  assert (E : scan_line st1 h
              = after_sections (save_section st1) (scan_line scan_init h)).
  { unfold scan_line, is_header in *.
    destruct (match_header (strip h)) as [[g1 g2]|]; [|discriminate].
    unfold after_sections. cbn. now rewrite app_nil_r. }
  now rewrite E, scan_after, save_section_after.
Qed.

End Composition.




(** ** Keyword counts of parts and wholes *)

Section Parts.

Lemma upper_app a b : upper (a ++ b) = (upper a ++ upper b)%string.
Proof. induction a as [|c a IH]; cbn; [reflexivity|now rewrite IH]. Qed.

Lemma prefix_app_mono kw x y : prefix kw x = true -> prefix kw (x ++ y) = true.
Proof.
  intros Hp. apply prefix_inv in Hp as [t ->]. rewrite append_assoc.
  apply prefix_app.
Qed.

Lemma occurrences_app kw x y :
  kw <> EmptyString ->
  occurrences kw x + occurrences kw y <= occurrences kw (x ++ y).
Proof.
  intros Hne. induction x as [|c x IH]; cbn [append].
  - cbn [occurrences]. destruct kw; [contradiction|]. cbn. lia.
  - cbn [occurrences]. destruct (prefix kw (String c x)) eqn:E.
    + change (String c (x ++ y)) with (String c x ++ y)%string.
      rewrite (prefix_app_mono _ _ y E). lia.
    + destruct (prefix kw (String c (x ++ y))); lia.
Qed.

Lemma count_keywords_occurrences s :
  _count_keywords s
  = list_sum (map (fun kw => occurrences kw (upper s)) RFC_KEYWORDS).
Proof.
  assert (H : forall kw, In kw RFC_KEYWORDS ->
                Py.count (upper s) kw = occurrences kw (upper s)).
  { intros kw Hkw. destruct (keyword_shape kw Hkw) as (Hne & B & _).
    now apply count_occurrences. }
  unfold _count_keywords, RFC_KEYWORDS.
  cbn [fold_left map list_sum fold_right].
  rewrite <- !H by (cbn; tauto). lia.
Qed.

Lemma list_sum_superadditive {A} (f g h : A -> nat) l :
  (forall x, In x l -> f x + g x <= h x) ->
  list_sum (map f l) + list_sum (map g l) <= list_sum (map h l).
Proof.
  induction l as [|x l IH]; intros Hx; [reflexivity|].
  cbn [map]. unfold list_sum in *. cbn [fold_right].
  specialize (Hx x (or_introl eq_refl)) as H0.
  assert (IH' := IH (fun y Hy => Hx y (or_intror Hy))). lia.
Qed.

Lemma count_keywords_app a b :
  _count_keywords a + _count_keywords b <= _count_keywords (a ++ b).
Proof.
  rewrite !count_keywords_occurrences. apply list_sum_superadditive.
  intros kw Hkw. rewrite upper_app. apply occurrences_app.
  now destruct (keyword_shape kw Hkw).
Qed.

Lemma count_keywords_inside pre s post :
  _count_keywords s <= _count_keywords (pre ++ s ++ post).
Proof.
  pose proof (count_keywords_app pre (s ++ post)).
  pose proof (count_keywords_app s post). lia.
Qed.

Lemma join_lines_cons x l :
  l <> [] -> join_lines (x :: l) = (x ++ String newline (join_lines l))%string.
Proof. destruct l; [contradiction|reflexivity]. Qed.

Lemma join_split_lines s : join_lines (split_lines s) = s.
Proof.
  induction s as [|c s IH]; [reflexivity|]. cbn [split_lines].
  destruct (Ascii.eqb c newline) eqn:E.
  - apply Ascii.eqb_eq in E. subst c.
    rewrite join_lines_cons by apply split_lines_not_nil. now rewrite IH.
  - destruct (split_lines s) as [|l ls] eqn:Es; [now apply split_lines_not_nil in Es|].
    rewrite <- IH. destruct ls; reflexivity.
Qed.

Lemma join_lines_app l1 l2 :
  l1 <> [] -> l2 <> [] ->
  join_lines (l1 ++ l2) = (join_lines l1 ++ String newline (join_lines l2))%string.
Proof.
  intros H1 H2. induction l1 as [|x l1 IH]; [contradiction|].
  destruct l1 as [|y l1].
  - cbn [app]. now rewrite join_lines_cons.
  - cbn [app] in *. rewrite join_lines_cons by discriminate.
    rewrite IH by discriminate. rewrite (join_lines_cons x (y :: l1)) by discriminate.
    now rewrite !append_assoc.
Qed.

(** The joined lines of a run of lines are a piece of the joined whole. *)
Lemma join_lines_infix l1 cl l3 :
  cl <> [] ->
  exists pre post,
    join_lines (l1 ++ cl ++ l3) = (pre ++ join_lines cl ++ post)%string.
Proof.
  intros Hc.
  assert (Hright : exists post,
            join_lines (cl ++ l3) = (join_lines cl ++ post)%string).
  { destruct l3 as [|z l3].
    - exists EmptyString. now rewrite app_nil_r, append_nil_r.
    - exists (String newline (join_lines (z :: l3))).
      now apply join_lines_app. }
  destruct Hright as [post Hpost]. destruct l1 as [|x l1].
  - exists EmptyString, post. exact Hpost.
  - exists (join_lines (x :: l1) ++ String newline EmptyString)%string, post.
    rewrite join_lines_app; [|discriminate|now destruct cl].
    rewrite Hpost, !append_assoc. reflexivity.
Qed.

(** The content of every section is made of lines that follow each other in
    the text. *)
Lemma scan_runs lines : forall st done,
  (exists b, done = b ++ current_content st) ->
  (section_truthy (current_section st) = false -> current_content st = []) ->
  Forall (fun e => exists l1 cl l3,
            cl <> [] /\ content e = join_lines cl /\ done = l1 ++ cl ++ l3)
         (sections st) ->
  Forall (fun e => exists l1 cl l3,
            cl <> [] /\ content e = join_lines cl /\ done ++ lines = l1 ++ cl ++ l3)
         (save_section (fold_left scan_line lines st)).
Proof.
  assert (Hweak : forall (done more : list string) (l : list entry),
            Forall (fun e => exists l1 cl l3,
                      cl <> [] /\ content e = join_lines cl /\ done = l1 ++ cl ++ l3) l ->
            Forall (fun e => exists l1 cl l3,
                      cl <> [] /\ content e = join_lines cl
                      /\ done ++ more = l1 ++ cl ++ l3) l).
  { intros done more l. apply Forall_impl. intros e (l1 & cl & l3 & Hne & Hc & ->).
    exists l1, cl, (l3 ++ more). repeat split; try assumption.
    now rewrite <- !app_assoc. }
  assert (Hsave : forall st done more,
            (exists b, done = b ++ current_content st) ->
            Forall (fun e => exists l1 cl l3,
                      cl <> [] /\ content e = join_lines cl /\ done = l1 ++ cl ++ l3)
                   (sections st) ->
            Forall (fun e => exists l1 cl l3,
                      cl <> [] /\ content e = join_lines cl
                      /\ done ++ more = l1 ++ cl ++ l3)
                   (save_section st)).
  { intros st done more [b Hb] Hs. apply save_section_Forall; [|now apply Hweak].
    intros num _ Hne _. exists b, (current_content st), more.
    cbn [content]. repeat split; try assumption. now rewrite Hb, <- app_assoc. }
  induction lines as [|l lines IH]; intros st done Hdone Hempty Hs; cbn [fold_left].
  - apply (Hsave st done [] Hdone Hs).
  - replace (done ++ l :: lines) with ((done ++ [l]) ++ lines)
      by now rewrite <- app_assoc.
    apply IH; unfold scan_line;
      destruct (match_header (strip l)) as [[g1 g2]|];
      cbn [sections current_section current_content].
    + exists (done ++ [l]). now rewrite app_nil_r.
    + destruct (section_truthy (current_section st)) eqn:Et;
        cbn [current_content].
      * destruct Hdone as [b ->]. exists b. now rewrite <- app_assoc.
      * exists (done ++ [l]). now rewrite (Hempty eq_refl), app_nil_r.
    + reflexivity.
    + destruct (section_truthy (current_section st)) eqn:Et;
        cbn [current_section current_content];
        [rewrite Et; discriminate|].
      intros _. now apply Hempty.
    + now apply Hsave.
    + destruct (section_truthy (current_section st)); cbn [sections];
        now apply Hweak.
Qed.

End Parts.

(** X19.  Putting two texts together never loses keyword hits: the count of
    the whole is at least the sum of the counts of the parts, so the count
    of a text is at least the count of any piece of it. *)
Theorem count_keywords_of_parts (a b pre post : string) :
  _count_keywords a + _count_keywords b <= _count_keywords (a ++ b) /\
  _count_keywords a <= _count_keywords (pre ++ a ++ post).
Proof.
  split; [apply count_keywords_app|apply count_keywords_inside].
Qed.

(** X20.  The content of every returned section is a piece of the text, made
    of whole lines that follow each other; hence a text with fewer than
    three keyword hits in all yields no section. *)
Theorem sections_come_from_the_text (text : string) :
  Forall (fun e => exists pre post, text = (pre ++ content e ++ post)%string)
         (_extract_property_sections text) /\
  (_count_keywords text < 3 -> _extract_property_sections text = []).
Proof.
  assert (Hpiece : Forall (fun e => exists pre post,
                             text = (pre ++ content e ++ post)%string)
                          (_extract_property_sections text)).
  { unfold _extract_property_sections, extract_lines.
    eapply Permutation_Forall; [apply sort_desc_perm|].
    pose proof (scan_runs (split_lines text) scan_init []) as H.
    eapply Forall_impl; [|apply H].
    - intros e (l1 & cl & l3 & Hne & Hc & Hl). cbn [app] in Hl.
      destruct (join_lines_infix l1 cl l3 Hne) as (pre & post & Hj).
      exists pre, post. now rewrite Hc, <- Hj, <- Hl, join_split_lines.
    - now exists [].
    - reflexivity.
    - constructor. }
  assert (Hmin : Forall (fun e => 3 <= _count_keywords (content e))
                        (_extract_property_sections text)).
  { unfold _extract_property_sections, extract_lines.
    eapply Permutation_Forall; [apply sort_desc_perm|].
    apply collect_lines_Forall. intros num ttl lines _ _ Hk. exact Hk. }
  split; [exact Hpiece|]. intros Hfew.
  destruct (_extract_property_sections text) as [|e l]; [reflexivity|].
  exfalso. apply Forall_inv in Hpiece as (pre & post & Htext).
  apply Forall_inv in Hmin.
  pose proof (count_keywords_inside pre (content e) post) as Hle.
  rewrite <- Htext in Hle. lia.
Qed.

Lemma sections_come_from_the_text_witness :
  _extract_property_sections (join_lines ["1. Scope"; "A peer MUST answer and MAY close."])
  = [].
Proof.
  apply (proj2 (sections_come_from_the_text _)). vm_compute. lia.
Defined.

Lemma top_sections_are_the_best_witness :
  Workflow.top_sections (parse sample_text) = property_sections (parse sample_text).
Proof.
  apply (proj2 (proj2 (proj2 (top_sections_are_the_best sample_text)))).
  vm_compute. lia.
Defined.

